(** * The cv181x eFuse driver (drivers/efuse/cv181x_efuse.c)

    A shallow embedding of the register protocol of the driver: the
    memory-mapped primitives, the busy-wait, the bit programming and
    verification algorithm of [cvi_efuse_write_word], the shadow read and
    the buffer read.  The hardware behind the registers is a parameter of
    the development (a [Device]); every register and clock access is also
    recorded in a log, so that statements about which accesses happen, and
    in which order, are statements about that log. *)

From Stdlib Require Import ZArith List Lia Bool.
Import ListNotations.
Local Open Scope Z_scope.

(** ** Machine integers and constants *)

(** [uint32_t] arithmetic: results are reduced modulo 2^32. *)
Definition u32 (x : Z) : Z := x mod 2 ^ 32.

(** [BIT(n)] of linux/bits.h. *)
Definition BIT (n : Z) : Z := Z.shiftl 1 n.

(** Error numbers of include/uapi/asm-generic/errno-base.h (the header is
    not part of the two source files; the values are the kernel's). *)
Definition EIO : Z := 5.
Definition EFAULT : Z := 14.

(** Register offsets, relative to [efuse_base]. *)
Definition EFUSE_SHADOW_REG : Z := 0x100.
Definition EFUSE_SIZE : Z := 0x100.

Definition EFUSE_MODE : Z := 0x0.
Definition EFUSE_ADR : Z := 0x4.
Definition EFUSE_DIR_CMD : Z := 0x8.
Definition EFUSE_RD_DATA : Z := 0xC.
Definition EFUSE_STATUS : Z := 0x10.
Definition EFUSE_ONE_WAY : Z := 0x14.

Definition EFUSE_BIT_AREAD : Z := BIT 0.
Definition EFUSE_BIT_MREAD : Z := BIT 1.
Definition EFUSE_BIT_PRG : Z := BIT 2.
Definition EFUSE_BIT_PWR_DN : Z := BIT 3.
Definition EFUSE_BIT_CMD : Z := BIT 4.
Definition EFUSE_BIT_BUSY : Z := BIT 0.
Definition EFUSE_CMD_REFRESH : Z := 0x30.

(** [enum EFUSE_READ_TYPE].  A C enum can hold any integer, and
    [cvi_efuse_read_from_phy] has a branch for that. *)
Inductive EFUSE_READ_TYPE : Type :=
| EFUSE_AREAD
| EFUSE_MREAD
| EFUSE_UNSUPPORTED (n : Z).

(** ** The hardware interface *)

(** What the driver consumes: 32-bit register reads and writes at an
    offset from [efuse_base], and the clock gate. *)
Record Device : Type := {
  hw : Type;
  ioread32 : Z -> hw -> Z * hw;
  iowrite32 : Z -> Z -> hw -> hw;
  clk_prepare_enable : hw -> Z * hw;
  clk_disable_unprepare : hw -> hw
}.

(** One entry of the access log. *)
Inductive event : Type :=
| EvRead (off val : Z)
| EvWrite (off val : Z)
| EvClkEnable (ret : Z)
| EvClkDisable.

(** ** Caller memory, for [cvi_efuse_read_buf] *)

(** The bytes behind a [void *], indexed by the offset from the pointer. *)
Definition Mem : Type := Z -> Z.

Definition memset (buf : Mem) (c : Z) (n : Z) : Mem :=
  fun k => if (0 <=? k) && (k <? n) then c else buf k.

(** Byte [j] of a 32-bit word in memory order (the SoC is little-endian). *)
Definition byte_of (v : Z) (j : Z) : Z := Z.land (Z.shiftr v (8 * j)) 0xFF.

(** [memcpy(buf + i, &v, sizeof(v))] *)
Definition memcpy4 (buf : Mem) (i : Z) (v : Z) : Mem :=
  fun k => if (i <=? k) && (k <? i + 4) then byte_of v (k - i) else buf k.

(** ** The driver *)

Section Driver.

Variable D : Device.

(** The device state together with the log of accesses made so far. *)
Definition world : Type := (hw D * list event)%type.

Definition dev (s : world) : hw D := fst s.
Definition log (s : world) : list event := snd s.

(** Computations over the world that may fail to return (a busy-wait that
    exhausts its polling budget). *)
Definition M (A : Type) : Type := world -> option (A * world).

Definition ret {A} (a : A) : M A := fun s => Some (a, s).

Definition bind {A B} (m : M A) (k : A -> M B) : M B :=
  fun s => match m s with
           | Some (a, s') => k a s'
           | None => None
           end.

Definition spin {A} : M A := fun _ => None.

Notation "x <- m ;; k" := (bind m (fun x => k))
  (at level 61, m at next level, right associativity).
Notation "m ;;; k" := (bind m (fun _ => k))
  (at level 61, right associativity).

(** [for (i = i0; i < i0 + n; i++) a = body(i, a);] *)
Fixpoint for_loop {A} (n : nat) (i : Z) (body : Z -> A -> M A) (a : A) : M A :=
  match n with
  | O => ret a
  | S n' => a' <- body i a ;; for_loop n' (i + 1) body a'
  end.

Definition mmio_write_32 (addr value : Z) : M unit :=
  fun s => Some (tt, (iowrite32 D addr value (dev s),
                      log s ++ [EvWrite addr value])).

Definition mmio_read_32 (addr : Z) : M Z :=
  fun s => let (v, h) := ioread32 D addr (dev s) in
           Some (u32 v, (h, log s ++ [EvRead addr (u32 v)])).

Definition mmio_setbits_32 (addr set : Z) : M unit :=
  v <- mmio_read_32 addr ;;
  mmio_write_32 addr (Z.lor v set).

Definition clk_enable : M Z :=
  fun s => let (r, h) := clk_prepare_enable D (dev s) in
           Some (r, (h, log s ++ [EvClkEnable r])).

Definition clk_disable : M unit :=
  fun s => Some (tt, (clk_disable_unprepare D (dev s),
                      log s ++ [EvClkDisable])).

(** The polling budget of one busy-wait. *)
Variable fuel : nat.

Fixpoint wait_polls (n : nat) : M unit :=
  match n with
  | O => spin
  | S n' =>
      v <- mmio_read_32 EFUSE_STATUS ;;
      if Z.land v EFUSE_BIT_BUSY =? 0 then ret tt else wait_polls n'
  end.

Definition cvi_efuse_wait_for_ready : M unit := wait_polls fuel.

Definition cvi_efuse_power_on (on : Z) : M unit :=
  if on =? 0
  then mmio_setbits_32 EFUSE_MODE (Z.lor EFUSE_BIT_PWR_DN EFUSE_BIT_CMD)
  else mmio_setbits_32 EFUSE_MODE EFUSE_BIT_CMD.

Definition cvi_efuse_refresh : M unit :=
  mmio_write_32 EFUSE_MODE EFUSE_CMD_REFRESH.

(** The composite physical address of one fuse bit. *)
Definition prog_phy_addr (word_addr bit_addr high_row : Z) : Z :=
  Z.lor (Z.lor (Z.shiftl (Z.land bit_addr 0x1F) 7)
               (Z.shiftl (Z.land word_addr 0x3F) 1))
        high_row.

Definition cvi_efuse_prog_bit (word_addr bit_addr high_row : Z) : M unit :=
  let phy_addr := prog_phy_addr word_addr bit_addr high_row in
  cvi_efuse_wait_for_ready ;;;
  mmio_write_32 EFUSE_ADR phy_addr ;;;
  mmio_write_32 EFUSE_MODE (Z.lor EFUSE_BIT_PRG EFUSE_BIT_CMD).

Definition cvi_efuse_read_from_phy (phy_word_addr : Z)
    (type : EFUSE_READ_TYPE) : M Z :=
  cvi_efuse_power_on 1 ;;;
  cvi_efuse_wait_for_ready ;;;
  mmio_write_32 EFUSE_ADR phy_word_addr ;;;
  match type with
  | EFUSE_AREAD =>
      mmio_write_32 EFUSE_MODE (Z.lor EFUSE_BIT_AREAD EFUSE_BIT_CMD) ;;;
      cvi_efuse_wait_for_ready ;;;
      mmio_read_32 EFUSE_RD_DATA
  | EFUSE_MREAD =>
      mmio_write_32 EFUSE_MODE (Z.lor EFUSE_BIT_MREAD EFUSE_BIT_CMD) ;;;
      cvi_efuse_wait_for_ready ;;;
      mmio_read_32 EFUSE_RD_DATA
  | EFUSE_UNSUPPORTED _ => ret (u32 (-1))
  end.

(** The physical row of pass [j] of a virtual word. *)
Definition phy_row (vir_word_addr j : Z) : Z :=
  Z.lor (u32 (Z.shiftl vir_word_addr 1)) j.

(** [zero_bit = val & (~row_val)] *)
Definition zero_bits (val row_val : Z) : Z :=
  Z.land val (u32 (Z.lnot row_val)).

(** The inner loop: one program pulse per set bit of [zero_bit]. *)
Definition prog_row (vir_word_addr zero_bit j : Z) : M unit :=
  for_loop 32 0
    (fun i _ =>
       if Z.land (Z.shiftr zero_bit i) 1 =? 0
       then ret tt
       else cvi_efuse_prog_bit vir_word_addr i j)
    tt.

(** The check after a pass: the new error count. *)
Definition check_row (val new_value err_cnt : Z) : Z :=
  if Z.land val new_value =? val then err_cnt else err_cnt + 1.

(** The body of the outer loop: pass [j] over one physical row. *)
Definition write_word_pass (vir_word_addr val : Z) (j : Z) (err_cnt : Z)
    : M Z :=
  row_val <- cvi_efuse_read_from_phy (phy_row vir_word_addr j) EFUSE_AREAD ;;
  let zero_bit := zero_bits val row_val in
  prog_row vir_word_addr zero_bit j ;;;
  new_value <- cvi_efuse_read_from_phy (phy_row vir_word_addr j) EFUSE_MREAD ;;
  ret (check_row val new_value err_cnt).

(** The outer loop alone: the error count after both passes. *)
Definition write_word_rows (vir_word_addr val : Z) : M Z :=
  for_loop 2 0 (write_word_pass vir_word_addr val) 0.

Definition cvi_efuse_write_word (vir_word_addr val : Z) : M Z :=
  err_cnt <- write_word_rows vir_word_addr val ;;
  cvi_efuse_refresh ;;;
  ret (if err_cnt >=? 2 then - EIO else 0).

Definition cvi_efuse_read_from_shadow (addr : Z) : M Z :=
  if addr >=? EFUSE_SIZE then ret (- EFAULT)
  else if negb (addr mod 4 =? 0) then ret (- EFAULT)
  else
    r <- clk_enable ;;
    if negb (r =? 0) then ret r
    else
      v <- mmio_read_32 (EFUSE_SHADOW_REG + addr) ;;
      clk_disable ;;;
      ret v.

(** The body under [#if 0] is not compiled; what remains is [return -1]. *)
Definition cvi_efuse_write (addr value : Z) : M Z := ret (-1).

(** The loop of [cvi_efuse_read_buf], from index [i]; [n] bounds the
    number of iterations still to run. *)
Fixpoint read_buf_loop (n : nat) (addr : Z) (buf : Mem) (buf_size : Z)
    (i : Z) : M (Z * Mem) :=
  if i <? buf_size then
    match n with
    | O => spin
    | S n' =>
        r <- cvi_efuse_read_from_shadow (u32 (addr + i)) ;;
        if r <? 0 then ret (r, buf)
        else
          let buf' := if r >? 0 then memcpy4 buf i (u32 r) else buf in
          read_buf_loop n' addr buf' buf_size (i + 4)
    end
  else ret (buf_size, buf).

(** [buf = None] is the null pointer.  After the clamp at most 64
    iterations run. *)
Definition cvi_efuse_read_buf (addr : Z) (buf : option Mem) (buf_size : Z)
    : M (Z * option Mem) :=
  match buf with
  | None => ret (- EFAULT, None)
  | Some b =>
      let buf_size := if buf_size >? EFUSE_SIZE then EFUSE_SIZE else buf_size in
      let b := memset b 0 buf_size in
      rb <- read_buf_loop 64 addr b buf_size 0 ;;
      ret (fst rb, Some (snd rb))
  end.

End Driver.

Arguments ret {D A} a s.
Arguments bind {D A B} m k s.
Arguments spin {D A} s.
Arguments for_loop {D A} n i body a s.
Arguments dev {D} s.
Arguments log {D} s.

(** The busy flag clears within [fuel] polls, whatever the device state. *)
Definition responsive (D : Device) (fuel : nat) : Prop :=
  forall s : world D, cvi_efuse_wait_for_ready D fuel s <> None.

(** ** Observations on the access log *)

(** The values written to the ADDR register, in order. *)
Fixpoint adr_writes (l : list event) : list Z :=
  match l with
  | [] => []
  | EvWrite off v :: l' =>
      if off =? EFUSE_ADR then v :: adr_writes l' else adr_writes l'
  | _ :: l' => adr_writes l'
  end.

(** The values written to the MODE register, in order. *)
Fixpoint mode_writes (l : list event) : list Z :=
  match l with
  | [] => []
  | EvWrite off v :: l' =>
      if off =? EFUSE_MODE then v :: mode_writes l' else mode_writes l'
  | _ :: l' => mode_writes l'
  end.

(** The bit positions 0..31 that are set in a word. *)
Definition set_bits (z : Z) : list Z :=
  filter (fun i => Z.testbit z i) (map Z.of_nat (seq 0 32)).

(** ** The buffer read as the specification words it *)

Section ReadBufferSpec.

Variable D : Device.

(** Shadow reads in 4-byte strides from [i]; every word read is copied,
    an error stops the loop and is propagated. *)
Fixpoint read_buffer_strides (n : nat) (addr : Z) (buf : Mem) (size : Z)
    (i : Z) : M D (Z * Mem) :=
  if i <? size then
    match n with
    | O => spin
    | S n' =>
        bind (cvi_efuse_read_from_shadow D (u32 (addr + i)))
          (fun r =>
             if r <? 0 then ret (r, buf)
             else read_buffer_strides n' addr (memcpy4 buf i (u32 r)) size
                                      (i + 4))
    end
  else ret (size, buf).

(** Clamp the size to the array bound, zero-fill, read, return the size. *)
Definition read_buffer (addr : Z) (buf : Mem) (size : Z) : M D (Z * Mem) :=
  let n := Z.min size EFUSE_SIZE in
  read_buffer_strides 64 addr (memset buf 0 n) n 0.

End ReadBufferSpec.

(** ** A model of the fuse macro *)

(** Modelled from the spec: the eFuse macro behind the registers is
    hardware and has no source.  The model keeps what sections 3 and 6 of
    the specification say of it: 128 physical rows of write-once bits, two
    rows per virtual word; MODE commands 0x11 (array read), 0x12 (margin
    read), 0x14 (program the bit at ADDR), 0x30 (refresh: reload the shadow
    window from the array); READ-DATA holds the last read; STATUS bit 0 is
    the busy flag.  ADDR is decoded as row = bits [6:0], bit = bits [11:7].
    The specification says that the two rows of a word compose its shadow
    word but not how: the composition is a parameter [compose] of the
    macro, fixed for its lifetime, and a refresh loads
    [compose row0 row1] into each shadow word.  Two fault masks make
    failures expressible: [dud] bits do not blow under a program pulse,
    [weak] bits read as 0 under a margin read.  A command keeps the macro
    busy for one STATUS poll.  MODE reads back as 0. *)
Record fuse_hw : Type := {
  fuse : Z -> Z;
  dud : Z -> Z;
  weak : Z -> Z;
  compose : Z -> Z -> Z;
  shadow : Z -> Z;
  adr : Z;
  rd_data : Z;
  busy : bool;
  clk_ret : Z
}.

Definition row_of (a : Z) : Z := Z.land a 0x7F.
Definition bit_of (a : Z) : Z := Z.land (Z.shiftr a 7) 0x1F.

Definition with_adr (a : Z) (s : fuse_hw) : fuse_hw :=
  {| fuse := fuse s; dud := dud s; weak := weak s; compose := compose s;
     shadow := shadow s;
     adr := a; rd_data := rd_data s; busy := busy s; clk_ret := clk_ret s |}.

Definition with_busy (b : bool) (s : fuse_hw) : fuse_hw :=
  {| fuse := fuse s; dud := dud s; weak := weak s; compose := compose s;
     shadow := shadow s;
     adr := adr s; rd_data := rd_data s; busy := b; clk_ret := clk_ret s |}.

Definition with_rd_data (v : Z) (s : fuse_hw) : fuse_hw :=
  {| fuse := fuse s; dud := dud s; weak := weak s; compose := compose s;
     shadow := shadow s;
     adr := adr s; rd_data := v; busy := true; clk_ret := clk_ret s |}.

Definition with_fuse (f : Z -> Z) (s : fuse_hw) : fuse_hw :=
  {| fuse := f; dud := dud s; weak := weak s; compose := compose s;
     shadow := shadow s;
     adr := adr s; rd_data := rd_data s; busy := true; clk_ret := clk_ret s |}.

Definition with_shadow (sh : Z -> Z) (s : fuse_hw) : fuse_hw :=
  {| fuse := fuse s; dud := dud s; weak := weak s; compose := compose s;
     shadow := sh;
     adr := adr s; rd_data := rd_data s; busy := true; clk_ret := clk_ret s |}.

(** One program pulse on bit [b] of row [r]. *)
Definition burn (d f : Z -> Z) (r b : Z) : Z -> Z :=
  fun r' => if r' =? r
            then Z.lor (f r') (Z.land (Z.shiftl 1 b) (Z.lnot (d r')))
            else f r'.

(** What a refresh loads into the shadow window, for a composition [c] of
    the two rows of a word. *)
Definition mirror (c : Z -> Z -> Z) (f : Z -> Z) : Z -> Z :=
  fun w => c (f (2 * w)) (f (2 * w + 1)).

Definition fuse_write (off v : Z) (s : fuse_hw) : fuse_hw :=
  if off =? EFUSE_ADR then with_adr v s
  else if off =? EFUSE_MODE then
    if v =? 0x11 then with_rd_data (fuse s (row_of (adr s))) s
    else if v =? 0x12 then
      with_rd_data (Z.land (fuse s (row_of (adr s)))
                           (Z.lnot (weak s (row_of (adr s))))) s
    else if v =? 0x14 then
      with_fuse (burn (dud s) (fuse s) (row_of (adr s)) (bit_of (adr s))) s
    else if v =? 0x30 then with_shadow (mirror (compose s) (fuse s)) s
    else with_busy true s
  else s.

Definition fuse_read (off : Z) (s : fuse_hw) : Z * fuse_hw :=
  if off =? EFUSE_STATUS then
    (if busy s then 1 else 0, with_busy false s)
  else if off =? EFUSE_RD_DATA then (rd_data s, s)
  else if (EFUSE_SHADOW_REG <=? off) && (off <? EFUSE_SHADOW_REG + EFUSE_SIZE)
  then (shadow s ((off - EFUSE_SHADOW_REG) / 4), s)
  else (0, s).

Definition sim : Device :=
  {| hw := fuse_hw;
     ioread32 := fuse_read;
     iowrite32 := fuse_write;
     clk_prepare_enable := fun s => (clk_ret s, s);
     clk_disable_unprepare := fun s => s |}.

(** A blank macro with composition [c] and fault masks [d] and [w]. *)
Definition macro (c : Z -> Z -> Z) (d w : Z -> Z) : fuse_hw :=
  {| fuse := fun _ => 0; dud := d; weak := w; compose := c;
     shadow := fun _ => 0;
     adr := 0; rd_data := 0; busy := false; clk_ret := 0 |}.

(** A blank macro whose shadow word is the union of its two rows,
    optionally with fault masks. *)
Definition blank (d w : Z -> Z) : fuse_hw := macro Z.lor d w.

Definition no_fault : Z -> Z := fun _ => 0.

Definition sim0 : world sim := (blank no_fault no_fault, []).

(** The array after [cvi_efuse_write_word] on the model: both rows of the
    word receive the bits of [val] they lack, except their dud bits. *)
Definition blow (d : Z -> Z) (val r x : Z) : Z :=
  Z.lor x (Z.land (zero_bits val (u32 x)) (Z.lnot (d r))).

Definition burn_row (d f : Z -> Z) (r val : Z) : Z -> Z :=
  fun r' => if r' =? r then blow d val r' (f r') else f r'.

Definition burn_word (d f : Z -> Z) (w val : Z) : Z -> Z :=
  burn_row d (burn_row d f (phy_row w 0) val) (phy_row w 1) val.

(** The MODE command of a read type. *)
Definition read_cmd (type : EFUSE_READ_TYPE) : Z :=
  match type with
  | EFUSE_AREAD => Z.lor EFUSE_BIT_AREAD EFUSE_BIT_CMD
  | EFUSE_MREAD => Z.lor EFUSE_BIT_MREAD EFUSE_BIT_CMD
  | EFUSE_UNSUPPORTED _ => 0
  end.

(** The set bits of a word among positions [i .. i+n-1]. *)
Definition bits_from (z : Z) (i n : nat) : list Z :=
  filter (fun k => Z.testbit z k) (map Z.of_nat (seq i n)).

(** The field layout of a packed address, as a decidable check on the
    three fields: the packed value is their weighted sum and each field is
    read back from its bit range. *)
Definition packed_ok (x y r : Z) : bool :=
  let p := Z.lor (Z.lor (Z.shiftl x 7) (Z.shiftl y 1)) r in
  (p =? x * 128 + y * 2 + r) && (Z.shiftr p 7 =? x) &&
  (Z.land (Z.shiftr p 1) 0x3F =? y) && (Z.land p 1 =? r).

Definition range (n : nat) : list Z := map Z.of_nat (seq 0 n).

(** The model decodes the addresses of the driver as intended: for a
    valid word, bit and row selector, the programming address selects row
    2 * word + selector and the given bit, and the read address of a pass
    is that same row. *)
Definition decode_ok (w k j : Z) : bool :=
  (row_of (prog_phy_addr w k j) =? 2 * w + j) &&
  (bit_of (prog_phy_addr w k j) =? k) &&
  (phy_row w j =? 2 * w + j) &&
  (row_of (phy_row w j) =? 2 * w + j).

(** Fault masks, worlds and a buffer for the worked examples. *)
Definition dud_at (r m : Z) : Z -> Z := fun r' => if r' =? r then m else 0.

Definition one_row_dud : world sim := (blank (dud_at 2 1) no_fault, []).

Definition both_rows_dud : world sim := (blank (fun _ => 1) no_fault, []).



Definition loaded : world sim :=
  ({| fuse := fun _ => 0; dud := no_fault; weak := no_fault;
      compose := Z.lor; shadow := fun k => 0x11223344 + k;
      adr := 0; rd_data := 0; busy := false; clk_ret := 0 |}, []).

Definition buf7 : Mem := fun _ => 7.

(** ** Runs *)

(** [steps m s a t s']: from [s], [m] returns [a] in world [s'], having
    appended exactly [t] to the log. *)
Definition steps {D A} (m : M D A) (s : world D) (a : A) (t : list event)
    (s' : world D) : Prop :=
  m s = Some (a, s') /\ log s' = log s ++ t.

(** The fault masks, the clock and the composition of the model are never
    written. *)
Definition same_faults (h h' : fuse_hw) : Prop :=
  dud h' = dud h /\ weak h' = weak h /\ clk_ret h' = clk_ret h /\
  compose h' = compose h.

(** The array after the first [n] iterations of the inner loop from bit [i]. *)
Fixpoint burn_bits (n : nat) (i : Z) (d f : Z -> Z) (r zb : Z) : Z -> Z :=
  match n with
  | O => f
  | S n' =>
      burn_bits n' (i + 1) d
        (if Z.land (Z.shiftr zb i) 1 =? 0 then f else burn d f r i) r zb
  end.

(** ** The character device *)

(** More error numbers of errno-base.h. *)
Definition EINVAL : Z := 22.
Definition ENOTTY : Z := 25.

(** [size_t] and [loff_t] arithmetic mixed with [size_t] is modulo 2^64. *)
Definition u64 (x : Z) : Z := x mod 2 ^ 64.

Section FileOps.

Variable D : Device.

(** The request codes [_IOR('E', 1, struct efuse_data)] and
    [_IOW('E', 2, struct efuse_data)]: the encoding macros of linux/ioctl.h
    are not part of the source, so the two codes are parameters. *)
Variable EFUSE_IOC_READ : Z.
Variable EFUSE_IOC_WRITE : Z.

(** [efuse_read].  [kernel_buf] is the stack array as found on entry;
    [copied] tells whether [copy_to_user] copied every byte.  The result is
    the return value, the file offset after the call and the kernel buffer,
    whose first (return value) bytes are what the user receives. *)
Definition efuse_read (kernel_buf : Mem) (copied : bool) (count offset : Z)
    : M D (Z * Z * Mem) :=
  if offset >=? EFUSE_SIZE then ret (0, offset, kernel_buf)
  else
    let count := if u64 (offset + count) >? EFUSE_SIZE
                 then u64 (EFUSE_SIZE - offset) else count in
    bind (cvi_efuse_read_buf D (u32 offset) (Some kernel_buf) count)
      (fun rb =>
         let r := fst rb in
         let kb := match snd rb with Some b => b | None => kernel_buf end in
         if r <? 0 then ret (r, offset, kb)
         else if negb copied then ret (- EFAULT, offset, kb)
         else ret (r, offset + r, kb)).

(** [efuse_write].  [user_addr] and [user_value] are the outcomes of the
    two [copy_from_user] calls, [None] for a fault.  The result is the
    return value and the file offset after the call. *)
Definition efuse_write (count : Z) (user_addr user_value : option Z)
    (offset : Z) : M D (Z * Z) :=
  if negb (count =? 4 * 2) then ret (- EINVAL, offset)
  else
    match user_addr with
    | None => ret (- EFAULT, offset)
    | Some addr =>
        match user_value with
        | None => ret (- EFAULT, offset)
        | Some value =>
            bind (cvi_efuse_write D addr value)
              (fun r =>
                 if r <? 0 then ret (r, offset)
                 else ret (count, offset + count))
        end
    end.

(** [efuse_ioctl].  [arg] is the outcome of the [copy_from_user] of the
    [struct efuse_data] (address, value), [None] for a fault; [copied] tells
    whether the [copy_to_user] of the answer succeeded.  The result is the
    return value and the structure written back to the user, if any. *)
Definition efuse_ioctl (cmd : Z) (arg : option (Z * Z)) (copied : bool)
    : M D (Z * option (Z * Z)) :=
  match arg with
  | None => ret (- EFAULT, None)
  | Some (addr, value) =>
      if cmd =? EFUSE_IOC_READ then
        bind (cvi_efuse_read_from_shadow D addr)
          (fun r =>
             if r <? 0 then ret (r, None)
             else if negb copied then ret (- EFAULT, None)
             else ret (0, Some (addr, u32 r)))
      else if cmd =? EFUSE_IOC_WRITE then
        bind (cvi_efuse_write D addr value)
          (fun r => if r <? 0 then ret (r, None) else ret (0, None))
      else ret (- ENOTTY, None)
  end.

End FileOps.

(** ** More observations on the access log *)

(** Successful clock enables minus clock disables. *)
Fixpoint clk_depth (l : list event) : Z :=
  match l with
  | [] => 0
  | EvClkEnable r :: l' => (if r =? 0 then 1 else 0) + clk_depth l'
  | EvClkDisable :: l' => clk_depth l' - 1
  | _ :: l' => clk_depth l'
  end.

(** An access of the read path: no register write, and register reads only
    of aligned words of the shadow window. *)
Definition shadow_access (e : event) : bool :=
  match e with
  | EvRead off _ =>
      (EFUSE_SHADOW_REG <=? off) && (off <? EFUSE_SHADOW_REG + EFUSE_SIZE)
      && (off mod 4 =? 0)
  | EvWrite _ _ => false
  | _ => true
  end.

(** A macro whose busy flag never clears. *)
Definition stuck : Device :=
  {| hw := unit;
     ioread32 := fun off h => (if off =? EFUSE_STATUS then 1 else 0, h);
     iowrite32 := fun _ _ h => h;
     clk_prepare_enable := fun h => (0, h);
     clk_disable_unprepare := fun h => h |}.

(** The request codes as the generic encoding of linux/ioctl.h gives them,
    for the worked instances. *)
Definition IOC_READ_GENERIC : Z := 0x80084501.
Definition IOC_WRITE_GENERIC : Z := 0x40084502.

(** * Properties *)

(** ** Logs and runs *)

Lemma adr_writes_app (l1 l2 : list event) :
  adr_writes (l1 ++ l2) = adr_writes l1 ++ adr_writes l2.
Proof.
  induction l1 as [|e l1 IH]; simpl; [reflexivity|].
  destruct e; auto. destruct (off =? EFUSE_ADR); simpl; congruence.
Qed.

Lemma mode_writes_app (l1 l2 : list event) :
  mode_writes (l1 ++ l2) = mode_writes l1 ++ mode_writes l2.
Proof.
  induction l1 as [|e l1 IH]; simpl; [reflexivity|].
  destruct e; auto. destruct (off =? EFUSE_MODE); simpl; congruence.
Qed.

Lemma u32_range (x : Z) : 0 <= u32 x < 2 ^ 32.
Proof. unfold u32. apply Z.mod_pos_bound. lia. Qed.

Section Runs.

Variable D : Device.

Lemma steps_ret {A} (a : A) (s : world D) : steps (ret a) s a [] s.
Proof. split; [reflexivity | now rewrite app_nil_r]. Qed.

Lemma steps_bind {A B} (m : M D A) (k : A -> M D B) s a t1 s1 b t2 s2 :
  steps m s a t1 s1 -> steps (k a) s1 b t2 s2 ->
  steps (bind m k) s b (t1 ++ t2) s2.
Proof.
  intros [H1 L1] [H2 L2]. split.
  - unfold bind. now rewrite H1.
  - now rewrite L2, L1, app_assoc.
Qed.

Lemma bind_assoc {A B C} (m : M D A) (k : A -> M D B) (k' : B -> M D C) s :
  bind (bind m k) k' s = bind m (fun a => bind (k a) k') s.
Proof. unfold bind. destruct (m s) as [[a s1]|]; reflexivity. Qed.

Lemma steps_write (a v : Z) (s : world D) :
  steps (mmio_write_32 D a v) s tt [EvWrite a v]
        (iowrite32 D a v (dev s), log s ++ [EvWrite a v]).
Proof. split; reflexivity. Qed.

Lemma steps_read (a : Z) (s : world D) :
  exists v s', steps (mmio_read_32 D a) s v [EvRead a v] s' /\ 0 <= v < 2 ^ 32.
Proof.
  unfold steps, mmio_read_32.
  destruct (ioread32 D a (dev s)) as [v h].
  exists (u32 v), (h, log s ++ [EvRead a (u32 v)]).
  repeat split; try reflexivity; apply u32_range.
Qed.

Lemma wait_polls_log (n : nat) :
  forall s u s', wait_polls D n s = Some (u, s') ->
  exists t, steps (wait_polls D n) s tt t s' /\
            adr_writes t = [] /\ mode_writes t = [].
Proof.
  induction n as [|n IH]; intros s u s' H; [discriminate|].
  simpl in H. unfold bind in H.
  destruct (steps_read EFUSE_STATUS s) as (v & s1 & [R L] & _).
  rewrite R in H.
  destruct (Z.land v EFUSE_BIT_BUSY =? 0) eqn:E.
  - inversion H; subst. exists [EvRead EFUSE_STATUS v].
    repeat split; auto.
    simpl. unfold bind. now rewrite R, E.
  - destruct (IH _ _ _ H) as (t & [W Lw] & A & Mo).
    exists ([EvRead EFUSE_STATUS v] ++ t). repeat split.
    + simpl. unfold bind. now rewrite R, E.
    + now rewrite Lw, L, app_assoc.
    + now rewrite adr_writes_app, A.
    + now rewrite mode_writes_app, Mo.
Qed.

Variable fuel : nat.
Hypothesis ready : responsive D fuel.

Lemma wait_steps (s : world D) :
  exists t s', steps (cvi_efuse_wait_for_ready D fuel) s tt t s' /\
               adr_writes t = [] /\ mode_writes t = [].
Proof.
  destruct (cvi_efuse_wait_for_ready D fuel s) as [[u s']|] eqn:E.
  - destruct (wait_polls_log fuel s u s' E) as (t & St & A & Mo).
    exists t, s'. auto.
  - exfalso. exact (ready s E).
Qed.

Lemma prog_bit_steps (w b r : Z) (s : world D) :
  exists t s1,
    steps (cvi_efuse_wait_for_ready D fuel) s tt t s1 /\
    adr_writes t = [] /\ mode_writes t = [] /\
    steps (cvi_efuse_prog_bit D fuel w b r) s tt
      (t ++ [EvWrite EFUSE_ADR (prog_phy_addr w b r); EvWrite EFUSE_MODE 0x14])
      (iowrite32 D EFUSE_MODE 0x14
         (iowrite32 D EFUSE_ADR (prog_phy_addr w b r) (dev s1)),
       log s1 ++ [EvWrite EFUSE_ADR (prog_phy_addr w b r);
                  EvWrite EFUSE_MODE 0x14]).
Proof.
  destruct (wait_steps s) as (t & s1 & W & A & Mo).
  exists t, s1. split; [exact W|]. split; [exact A|]. split; [exact Mo|].
  destruct W as [W L]. split.
  - unfold cvi_efuse_prog_bit, bind. rewrite W.
    unfold mmio_write_32. simpl. now rewrite <- app_assoc.
  - simpl. now rewrite L, <- app_assoc.
Qed.

End Runs.

(** ** The passes of [cvi_efuse_write_word] on any device *)

Lemma land_shiftr_1 (z i : Z) :
  0 <= i -> Z.land (Z.shiftr z i) 1 = Z.b2z (Z.testbit z i).
Proof.
  intros Hi. change 1 with (Z.ones 1) at 1.
  rewrite Z.land_ones by lia. change (2 ^ 1) with 2.
  rewrite <- Z.bit0_mod, Z.shiftr_spec by lia. reflexivity.
Qed.

Lemma bit_test (z i : Z) :
  0 <= i -> (Z.land (Z.shiftr z i) 1 =? 0) = negb (Z.testbit z i).
Proof.
  intros Hi. rewrite land_shiftr_1 by exact Hi.
  destruct (Z.testbit z i); reflexivity.
Qed.

Section Passes.

Variable D : Device.
Variable fuel : nat.
Hypothesis ready : responsive D fuel.

Lemma read_from_phy_steps (a : Z) (ty : EFUSE_READ_TYPE) (s : world D) :
  ty = EFUSE_AREAD \/ ty = EFUSE_MREAD ->
  exists v t0 s',
    steps (cvi_efuse_read_from_phy D fuel a ty) s v
          (t0 ++ [EvRead EFUSE_RD_DATA v]) s' /\
    0 <= v < 2 ^ 32 /\
    adr_writes t0 = [a] /\
    exists m, mode_writes t0 = [Z.lor m EFUSE_BIT_CMD; read_cmd ty].
Proof.
  intros Hty.
  destruct (steps_read D EFUSE_MODE s) as (m & s1 & R0 & _).
  pose proof (steps_write D EFUSE_MODE (Z.lor m EFUSE_BIT_CMD) s1) as W0.
  destruct (wait_steps D fuel ready
              (iowrite32 D EFUSE_MODE (Z.lor m EFUSE_BIT_CMD) (dev s1),
               log s1 ++ [EvWrite EFUSE_MODE (Z.lor m EFUSE_BIT_CMD)]))
    as (t1 & s2 & P1 & A1 & M1).
  pose proof (steps_write D EFUSE_ADR a s2) as W1.
  pose proof (steps_write D EFUSE_MODE (read_cmd ty)
                (iowrite32 D EFUSE_ADR a (dev s2),
                 log s2 ++ [EvWrite EFUSE_ADR a])) as W2.
  destruct (wait_steps D fuel ready
              (iowrite32 D EFUSE_MODE (read_cmd ty)
                 (dev (iowrite32 D EFUSE_ADR a (dev s2),
                       log s2 ++ [EvWrite EFUSE_ADR a])),
               log (iowrite32 D EFUSE_ADR a (dev s2),
                    log s2 ++ [EvWrite EFUSE_ADR a])
               ++ [EvWrite EFUSE_MODE (read_cmd ty)]))
    as (t2 & s3 & P2 & A2 & M2).
  destruct (steps_read D EFUSE_RD_DATA s3) as (v & s4 & R1 & Hv).
  exists v,
    ([EvRead EFUSE_MODE m] ++ [EvWrite EFUSE_MODE (Z.lor m EFUSE_BIT_CMD)]
     ++ t1 ++ [EvWrite EFUSE_ADR a] ++ [EvWrite EFUSE_MODE (read_cmd ty)] ++ t2),
    s4.
  split; [|split; [exact Hv|split]].
  - assert (St : steps
      (bind (mmio_read_32 D EFUSE_MODE) (fun x =>
       bind (mmio_write_32 D EFUSE_MODE (Z.lor x EFUSE_BIT_CMD)) (fun _ =>
       bind (cvi_efuse_wait_for_ready D fuel) (fun _ =>
       bind (mmio_write_32 D EFUSE_ADR a) (fun _ =>
       bind (mmio_write_32 D EFUSE_MODE (read_cmd ty)) (fun _ =>
       bind (cvi_efuse_wait_for_ready D fuel) (fun _ =>
       mmio_read_32 D EFUSE_RD_DATA)))))))
      s v
      ([EvRead EFUSE_MODE m] ++ [EvWrite EFUSE_MODE (Z.lor m EFUSE_BIT_CMD)]
       ++ t1 ++ [EvWrite EFUSE_ADR a] ++ [EvWrite EFUSE_MODE (read_cmd ty)]
       ++ t2 ++ [EvRead EFUSE_RD_DATA v]) s4).
    { eapply steps_bind; [exact R0|].
      eapply steps_bind; [exact W0|].
      eapply steps_bind; [exact P1|].
      eapply steps_bind; [exact W1|].
      eapply steps_bind; [exact W2|].
      eapply steps_bind; [exact P2|exact R1]. }
    destruct St as [E L]. split.
    + rewrite <- E. unfold cvi_efuse_read_from_phy, cvi_efuse_power_on.
      simpl (1 =? 0). cbv iota. unfold mmio_setbits_32. rewrite bind_assoc.
      destruct Hty; subst ty; reflexivity.
    + rewrite L. f_equal. now rewrite <- !app_assoc.
  - rewrite !adr_writes_app, A1, A2. reflexivity.
  - exists m. rewrite !mode_writes_app, M1, M2. reflexivity.
Qed.

Lemma prog_loop_steps (w zb j : Z) (n : nat) :
  forall (i : nat) (s : world D),
  exists t s',
    steps (for_loop n (Z.of_nat i)
             (fun k _ =>
                if Z.land (Z.shiftr zb k) 1 =? 0 then ret tt
                else cvi_efuse_prog_bit D fuel w k j) tt) s tt t s' /\
    adr_writes t = map (fun k => prog_phy_addr w k j) (bits_from zb i n) /\
    mode_writes t = map (fun _ => 0x14) (bits_from zb i n).
Proof.
  induction n as [|n IH]; intros i s.
  - exists [], s. split; [apply steps_ret|]. split; reflexivity.
  - unfold bits_from. simpl seq. simpl map. simpl filter.
    fold (bits_from zb (S i) n).
    cbn [for_loop]. rewrite bit_test by lia.
    replace (Z.of_nat i + 1) with (Z.of_nat (S i)) by lia.
    destruct (Z.testbit zb (Z.of_nat i)); cbn [negb].
    + destruct (prog_bit_steps D fuel ready w (Z.of_nat i) j s)
        as (t0 & s1 & _ & A0 & M0 & P).
      match type of P with steps _ _ _ _ ?x => destruct (IH (S i) x)
        as (t & s' & St & A & Mo) end.
      eexists; exists s'. split; [|split].
      * eapply steps_bind; [exact P | exact St].
      * rewrite !adr_writes_app, A0, A. reflexivity.
      * rewrite !mode_writes_app, M0, Mo. reflexivity.
    + destruct (IH (S i) s) as (t & s' & St & A & Mo).
      exists t, s'. split; [|split; assumption].
      change t with ([] ++ t).
      eapply steps_bind; [apply steps_ret | exact St].
Qed.

Lemma set_bits_from (z : Z) : bits_from z 0 32 = set_bits z.
Proof. unfold bits_from, set_bits. reflexivity. Qed.

Lemma prog_row_steps (w zb j : Z) (s : world D) :
  exists t s',
    steps (prog_row D fuel w zb j) s tt t s' /\
    adr_writes t = map (fun k => prog_phy_addr w k j) (set_bits zb) /\
    mode_writes t = map (fun _ => 0x14) (set_bits zb).
Proof.
  rewrite <- set_bits_from. unfold prog_row.
  change 0 with (Z.of_nat 0) at 1. apply prog_loop_steps.
Qed.

Lemma write_word_pass_steps (vir val j e : Z) (s : world D) :
  exists row_val t1 s1 t2 s2 nv t3 s3,
    steps (cvi_efuse_read_from_phy D fuel (phy_row vir j) EFUSE_AREAD)
          s row_val (t1 ++ [EvRead EFUSE_RD_DATA row_val]) s1 /\
    steps (prog_row D fuel vir (zero_bits val row_val) j) s1 tt t2 s2 /\
    steps (cvi_efuse_read_from_phy D fuel (phy_row vir j) EFUSE_MREAD)
          s2 nv (t3 ++ [EvRead EFUSE_RD_DATA nv]) s3 /\
    steps (write_word_pass D fuel vir val j e) s (check_row val nv e)
          ((t1 ++ [EvRead EFUSE_RD_DATA row_val]) ++ t2 ++
           (t3 ++ [EvRead EFUSE_RD_DATA nv])) s3 /\
    (0 <= row_val < 2 ^ 32 /\ 0 <= nv < 2 ^ 32) /\
    (adr_writes t1 = [phy_row vir j] /\
     exists m, mode_writes t1 = [Z.lor m EFUSE_BIT_CMD; 0x11]) /\
    (adr_writes t2 =
       map (fun k => prog_phy_addr vir k j) (set_bits (zero_bits val row_val)) /\
     mode_writes t2 = map (fun _ => 0x14) (set_bits (zero_bits val row_val))) /\
    (adr_writes t3 = [phy_row vir j] /\
     exists m, mode_writes t3 = [Z.lor m EFUSE_BIT_CMD; 0x12]).
Proof.
  destruct (read_from_phy_steps (phy_row vir j) EFUSE_AREAD s (or_introl eq_refl))
    as (row_val & t1 & s1 & R1 & Hr & A1 & M1).
  destruct (prog_row_steps vir (zero_bits val row_val) j s1)
    as (t2 & s2 & P & A2 & M2).
  destruct (read_from_phy_steps (phy_row vir j) EFUSE_MREAD s2 (or_intror eq_refl))
    as (nv & t3 & s3 & R2 & Hn & A3 & M3).
  exists row_val, t1, s1, t2, s2, nv, t3, s3.
  repeat (split; [assumption|]).
  split; [|auto 6].
  unfold write_word_pass.
  eapply steps_bind; [exact R1|].
  eapply steps_bind; [exact P|].
  replace (t3 ++ [EvRead EFUSE_RD_DATA nv])
    with ((t3 ++ [EvRead EFUSE_RD_DATA nv]) ++ []) by apply app_nil_r.
  eapply steps_bind; [exact R2 | apply steps_ret].
Qed.

End Passes.

(** ** Bit-level facts *)

Lemma in_range (n : nat) (x : Z) : 0 <= x < Z.of_nat n -> In x (range n).
Proof.
  intros H. unfold range. apply in_map_iff. exists (Z.to_nat x).
  split; [lia|]. apply in_seq. lia.
Qed.

Lemma packed_all :
  forallb (fun x => forallb (fun y => forallb (packed_ok x y) (range 2))
                            (range 64)) (range 32) = true.
Proof. vm_compute. reflexivity. Qed.

Lemma packed_fields (x y r : Z) :
  0 <= x < 32 -> 0 <= y < 64 -> 0 <= r <= 1 -> packed_ok x y r = true.
Proof.
  intros Hx Hy Hr. pose proof packed_all as H.
  rewrite forallb_forall in H. specialize (H x (in_range 32 x Hx)).
  rewrite forallb_forall in H. specialize (H y (in_range 64 y Hy)).
  rewrite forallb_forall in H. apply H. apply in_range. lia.
Qed.

Lemma land_mask (x : Z) (n : Z) : 0 <= n -> Z.land x (Z.ones n) = x mod 2 ^ n.
Proof. intros. now apply Z.land_ones. Qed.

Lemma testbit_u32 (x i : Z) :
  0 <= i < 32 -> Z.testbit (u32 x) i = Z.testbit x i.
Proof. intros H. unfold u32. apply Z.mod_pow2_bits_low. lia. Qed.

Lemma testbit_u32_high (x i : Z) : 32 <= i -> Z.testbit (u32 x) i = false.
Proof. intros H. unfold u32. apply Z.mod_pow2_bits_high. lia. Qed.

Lemma testbit_zero_bits (val row_val i : Z) :
  0 <= i < 32 ->
  Z.testbit (zero_bits val row_val) i
  = Z.testbit val i && negb (Z.testbit row_val i).
Proof.
  intros H. unfold zero_bits.
  rewrite Z.land_spec, testbit_u32, Z.lnot_spec by lia. reflexivity.
Qed.

Lemma in_set_bits (z i : Z) :
  In i (set_bits z) <-> 0 <= i < 32 /\ Z.testbit z i = true.
Proof.
  unfold set_bits. rewrite filter_In, in_map_iff. split.
  - intros [(n & <- & Hn) Hb]. apply in_seq in Hn. split; [lia | exact Hb].
  - intros [Hi Hb]. split; [|exact Hb].
    exists (Z.to_nat i). split; [lia|]. apply in_seq. lia.
Qed.

Lemma land_outside (val nv m : Z) :
  Z.land m val = 0 -> Z.land val (Z.lxor nv m) = Z.land val nv.
Proof.
  intros H. apply Z.bits_inj'. intros n Hn.
  rewrite !Z.land_spec, Z.lxor_spec.
  assert (Hm : Z.testbit m n && Z.testbit val n = false).
  { rewrite <- Z.land_spec, H. apply Z.bits_0. }
  destruct (Z.testbit val n), (Z.testbit nv n), (Z.testbit m n);
    simpl in *; congruence.
Qed.

(** ** The write path on any responsive device *)

Section WriteWord.

Variable D : Device.
Variable fuel : nat.
Hypothesis ready : responsive D fuel.

(** C2: [cvi_efuse_prog_bit] waits for the macro, then writes to ADDR the
    value ((bit_addr & 0x1F) << 7) | ((word_addr & 0x3F) << 1) | high_row and
    issues the program command; the wait writes nothing to ADDR.  With a row
    selector of 0 or 1 the fields do not overlap: the bit index is read back
    from bits [11:7], the word index from bits [6:1], the selector from
    bit 0. *)
Theorem prog_bit_packed_address (word_addr bit_addr high_row : Z)
    (s : world D) :
  let p := Z.lor (Z.lor (Z.shiftl (Z.land bit_addr 0x1F) 7)
                        (Z.shiftl (Z.land word_addr 0x3F) 1)) high_row in
  (exists t s1 s',
     cvi_efuse_wait_for_ready D fuel s = Some (tt, s1) /\
     log s1 = log s ++ t /\ adr_writes t = [] /\ mode_writes t = [] /\
     cvi_efuse_prog_bit D fuel word_addr bit_addr high_row s = Some (tt, s') /\
     dev s' = iowrite32 D EFUSE_MODE 0x14 (iowrite32 D EFUSE_ADR p (dev s1)) /\
     log s' = log s1 ++ [EvWrite EFUSE_ADR p; EvWrite EFUSE_MODE 0x14]) /\
  (0 <= high_row <= 1 ->
     p = (bit_addr mod 32) * 128 + (word_addr mod 64) * 2 + high_row /\
     Z.shiftr p 7 = bit_addr mod 32 /\
     Z.land (Z.shiftr p 1) 0x3F = word_addr mod 64 /\
     Z.land p 1 = high_row).
Proof.
  intros p. split.
  - destruct (prog_bit_steps D fuel ready word_addr bit_addr high_row s)
      as (t & s1 & [W L] & A & Mo & [P _]).
    exists t, s1. eexists. repeat (split; [eassumption|]).
    split; reflexivity.
  - intros Hr. subst p.
    replace (Z.land bit_addr 0x1F) with (bit_addr mod 32)
      by (symmetry; apply (land_mask bit_addr 5); lia).
    replace (Z.land word_addr 0x3F) with (word_addr mod 64)
      by (symmetry; apply (land_mask word_addr 6); lia).
    pose proof (Z.mod_pos_bound bit_addr 32 eq_refl) as Hb.
    pose proof (Z.mod_pos_bound word_addr 64 eq_refl) as Hw.
    pose proof (packed_fields _ _ _ Hb Hw Hr) as H.
    unfold packed_ok in H. cbv zeta in H.
    rewrite !andb_true_iff, !Z.eqb_eq in H.
    destruct H as [[[H1 H2] H3] H4]. auto.
Qed.

(** C3: the outer loop runs the pass for j = 0, then for j = 1.  A pass
    first array-reads the physical row (vir_word_addr << 1) | j, then runs
    the programming loop on zero_bit = val & ~row_val.  The
    addresses the loop writes to ADDR are those of the set positions of
    zero_bit, in increasing order, each followed by one program command; a
    position is programmed exactly when it is below 32, set in [val] and
    clear in the array-read result. *)
Theorem write_word_pass_programs_zero_bits (vir_word_addr val j err_cnt : Z)
    (s : world D) :
  let row := Z.lor (u32 (Z.shiftl vir_word_addr 1)) j in
  write_word_rows D fuel vir_word_addr val s
  = bind (write_word_pass D fuel vir_word_addr val 0 0)
         (fun e => write_word_pass D fuel vir_word_addr val 1 e) s /\
  exists row_val t1 s1 t2 s2 e' s',
    cvi_efuse_read_from_phy D fuel row EFUSE_AREAD s = Some (row_val, s1) /\
    log s1 = log s ++ t1 ++ [EvRead EFUSE_RD_DATA row_val] /\
    adr_writes t1 = [row] /\
    (exists m, mode_writes t1 = [Z.lor m EFUSE_BIT_CMD; 0x11]) /\
    prog_row D fuel vir_word_addr (Z.land val (u32 (Z.lnot row_val))) j s1
      = Some (tt, s2) /\
    log s2 = log s1 ++ t2 /\
    adr_writes t2 =
      map (fun i => prog_phy_addr vir_word_addr i j)
          (set_bits (Z.land val (u32 (Z.lnot row_val)))) /\
    mode_writes t2 =
      map (fun _ => 0x14) (set_bits (Z.land val (u32 (Z.lnot row_val)))) /\
    (forall i, In i (set_bits (Z.land val (u32 (Z.lnot row_val)))) <->
               0 <= i < 32 /\ Z.testbit val i = true /\
               Z.testbit row_val i = false) /\
    write_word_pass D fuel vir_word_addr val j err_cnt s = Some (e', s') /\
    exists t3, log s' = log s2 ++ t3 /\ adr_writes t3 = [row].
Proof.
  intros row. split.
  { unfold write_word_rows. cbn [for_loop]. unfold bind.
    destruct (write_word_pass D fuel vir_word_addr val 0 0 s) as [[e s1]|];
      [|reflexivity].
    change (0 + 1) with 1.
    destruct (write_word_pass D fuel vir_word_addr val 1 e s1) as [[e' s2]|];
      reflexivity. }
  destruct (write_word_pass_steps D fuel ready vir_word_addr val j err_cnt s)
    as (row_val & t1 & s1 & t2 & s2 & nv & t3 & s3 &
        [R1 L1] & [P L2] & [R2 L3] & [W _] & _ & [A1 M1] & [A2 M2] & [A3 _]).
  exists row_val, t1, s1, t2, s2, (check_row val nv err_cnt), s3.
  repeat (split; [assumption|]).
  split.
  - intros i. fold (zero_bits val row_val). rewrite in_set_bits. split.
    + intros [Hi Hb]. rewrite testbit_zero_bits in Hb by exact Hi.
      apply andb_true_iff in Hb. destruct Hb as [Hv Hn].
      apply negb_true_iff in Hn. auto.
    + intros (Hi & Hv & Hn). split; [exact Hi|].
      rewrite testbit_zero_bits by exact Hi. now rewrite Hv, Hn.
  - split; [exact W|].
    exists (t3 ++ [EvRead EFUSE_RD_DATA nv]). split; [exact L3|].
    rewrite adr_writes_app, A3. reflexivity.
Qed.

(** C4: after the programming loop of a pass the same physical row is read
    again, in margin-read mode, and the error count grows by one exactly
    when (val & new_value) != val; otherwise it is unchanged.  Bits of the
    value read that lie outside [val] do not influence the outcome. *)
Theorem write_word_pass_margin_check (vir_word_addr val j err_cnt : Z)
    (s : world D) :
  let row := Z.lor (u32 (Z.shiftl vir_word_addr 1)) j in
  exists row_val s1 s2 new_value t3 e' s',
    cvi_efuse_read_from_phy D fuel row EFUSE_AREAD s = Some (row_val, s1) /\
    prog_row D fuel vir_word_addr (Z.land val (u32 (Z.lnot row_val))) j s1
      = Some (tt, s2) /\
    cvi_efuse_read_from_phy D fuel row EFUSE_MREAD s2 = Some (new_value, s') /\
    log s' = log s2 ++ t3 ++ [EvRead EFUSE_RD_DATA new_value] /\
    adr_writes t3 = [row] /\
    (exists m, mode_writes t3 = [Z.lor m EFUSE_BIT_CMD; 0x12]) /\
    write_word_pass D fuel vir_word_addr val j err_cnt s = Some (e', s') /\
    (e' = err_cnt + 1 <-> Z.land val new_value <> val) /\
    (e' = err_cnt <-> Z.land val new_value = val) /\
    (forall m, Z.land m val = 0 ->
       check_row val (Z.lxor new_value m) err_cnt = e').
Proof.
  intros row.
  destruct (write_word_pass_steps D fuel ready vir_word_addr val j err_cnt s)
    as (row_val & t1 & s1 & t2 & s2 & nv & t3 & s3 &
        [R1 L1] & [P L2] & [R2 L3] & [W _] & _ & _ & _ & [A3 M3]).
  exists row_val, s1, s2, nv, t3, (check_row val nv err_cnt), s3.
  repeat (split; [assumption|]).
  unfold check_row. split; [|split].
  - destruct (Z.eqb_spec (Z.land val nv) val); split; intros; try lia;
      congruence.
  - destruct (Z.eqb_spec (Z.land val nv) val); split; intros; try lia;
      congruence.
  - intros m Hm. now rewrite land_outside.
Qed.

(** C1: the outer loop is pass 0 followed by pass 1, each ending in a
    margin read; the error count is the number of passes whose check
    (val & new_value) == val failed.  After the refresh command
    [cvi_efuse_write_word] returns -EIO exactly when that count is 2, that
    is when both rows failed, and 0 otherwise, in particular when exactly one
    row failed. *)
Theorem write_word_fails_iff_both_rows_fail (vir_word_addr val : Z)
    (s : world D) :
  exists sa nv0 s1 sb nv1 s2 err_cnt r,
    cvi_efuse_read_from_phy D fuel (phy_row vir_word_addr 0) EFUSE_MREAD sa
      = Some (nv0, s1) /\
    write_word_pass D fuel vir_word_addr val 0 0 s
      = Some (check_row val nv0 0, s1) /\
    cvi_efuse_read_from_phy D fuel (phy_row vir_word_addr 1) EFUSE_MREAD sb
      = Some (nv1, s2) /\
    write_word_pass D fuel vir_word_addr val 1 (check_row val nv0 0) s1
      = Some (err_cnt, s2) /\
    err_cnt = (if Z.land val nv0 =? val then 0 else 1)
              + (if Z.land val nv1 =? val then 0 else 1) /\
    cvi_efuse_write_word D fuel vir_word_addr val s
      = Some (r, (iowrite32 D EFUSE_MODE EFUSE_CMD_REFRESH (dev s2),
                  log s2 ++ [EvWrite EFUSE_MODE EFUSE_CMD_REFRESH])) /\
    (r = - EIO <-> err_cnt = 2) /\
    (r = - EIO <-> Z.land val nv0 <> val /\ Z.land val nv1 <> val) /\
    (err_cnt <= 1 -> r = 0) /\
    (r = - EIO \/ r = 0) /\ - EIO <> 0.
Proof.
  destruct (write_word_pass_steps D fuel ready vir_word_addr val 0 0 s)
    as (rv0 & ta & sa0 & tb & sa & nv0 & tc & s1 &
        _ & _ & [R0 _] & [W0 _] & _).
  destruct (write_word_pass_steps D fuel ready vir_word_addr val 1
              (check_row val nv0 0) s1)
    as (rv1 & td & sb0 & te & sb & nv1 & tf & s2 &
        _ & _ & [R1 _] & [W1 _] & _).
  exists sa, nv0, s1, sb, nv1, s2, (check_row val nv1 (check_row val nv0 0)).
  eexists. repeat (split; [eassumption|]).
  split; [|split].
  - unfold check_row.
    destruct (Z.land val nv0 =? val), (Z.land val nv1 =? val); reflexivity.
  - unfold cvi_efuse_write_word, write_word_rows. cbn [for_loop].
    unfold bind at 1. unfold bind at 1. rewrite W0.
    change (0 + 1) with 1. unfold bind at 1. rewrite W1.
    reflexivity.
  - unfold check_row, EIO.
    destruct (Z.eqb_spec (Z.land val nv0) val),
             (Z.eqb_spec (Z.land val nv1) val); simpl;
      repeat split; intros; try lia; try tauto; try discriminate.
Qed.

End WriteWord.

(** ** The read path on any device *)

Section ReadPath.

Variable D : Device.

Lemma read_from_shadow_cases (a : Z) (s : world D) :
  exists r s',
    cvi_efuse_read_from_shadow D a s = Some (r, s') /\
    ((r = - EFAULT /\ s' = s /\ (a >= EFUSE_SIZE \/ a mod 4 <> 0)) \/
     (a < EFUSE_SIZE /\ a mod 4 = 0 /\
      ((r <> 0 /\ r = fst (clk_prepare_enable D (dev s))) \/
       (0 <= r < 2 ^ 32 /\ fst (clk_prepare_enable D (dev s)) = 0)))).
Proof.
  unfold cvi_efuse_read_from_shadow.
  destruct (Z.geb_spec a EFUSE_SIZE) as [Hge|Hlt].
  { exists (- EFAULT), s. split; [reflexivity|]. left. repeat split. lia. }
  destruct (Z.eqb_spec (a mod 4) 0) as [Hal|Hmis]; cbn [negb].
  2:{ exists (- EFAULT), s. split; [reflexivity|]. left. repeat split.
      now right. }
  unfold bind, clk_enable.
  destruct (clk_prepare_enable D (dev s)) as [c h] eqn:Ec.
  destruct (Z.eqb_spec c 0) as [Hc|Hc]; cbn [negb].
  - unfold mmio_read_32. simpl dev.
    destruct (ioread32 D (EFUSE_SHADOW_REG + a) h) as [v h'].
    eexists; eexists. split; [reflexivity|]. right.
    repeat split; try assumption; try apply u32_range. right.
    split; [apply u32_range | exact Hc].
  - eexists; eexists. split; [reflexivity|]. right.
    repeat split; try assumption. left. split; [exact Hc | reflexivity].
Qed.

(** C5 (as amended): an address at or beyond 256, and an address that is
    not a multiple of 4, are both refused with the one code -EFAULT, and the
    world is returned as it was: the clock is not touched, no register is
    accessed, nothing is logged. *)
Theorem read_from_shadow_rejects_bad_address (addr : Z) (s : world D) :
  addr >= EFUSE_SIZE \/ addr mod 4 <> 0 ->
  cvi_efuse_read_from_shadow D addr s = Some (- EFAULT, s).
Proof.
  intros H. unfold cvi_efuse_read_from_shadow.
  destruct (Z.geb_spec addr EFUSE_SIZE) as [Hge|Hlt]; [reflexivity|].
  destruct (Z.eqb_spec (addr mod 4) 0) as [Hal|Hmis]; [|reflexivity].
  destruct H; [lia | contradiction].
Qed.

(** C9: [cvi_efuse_write] returns -1, a failure, for every address and
    value, and leaves the device and the log as they were. *)
Theorem efuse_write_always_fails (addr value : Z) (s : world D) :
  cvi_efuse_write D addr value s = Some (-1, s) /\ -1 < 0.
Proof. split; [reflexivity | lia]. Qed.

Lemma byte_of_zero (j : Z) : byte_of (u32 0) j = 0.
Proof. unfold byte_of, u32. simpl (0 mod _). now rewrite Z.shiftr_0_l. Qed.

Lemma read_buf_loop_refines (addr size : Z) (n : nat) :
  forall (i : Z) (b1 b2 : Mem) (s : world D),
  size <= i + 4 * Z.of_nat n ->
  (forall k, k < size -> b1 k = b2 k) ->
  (forall k, i <= k < size -> b1 k = 0) ->
  exists r b1' b2' s',
    read_buf_loop D n addr b1 size i s = Some ((r, b1'), s') /\
    read_buffer_strides D n addr b2 size i s = Some ((r, b2'), s') /\
    (forall k, k < size -> b1' k = b2' k) /\
    (r < 0 \/ r = size).
Proof.
  induction n as [|n IH]; intros i b1 b2 s Hn Hag Hz.
  - simpl. destruct (Z.ltb_spec i size); [lia|].
    exists size, b1, b2, s. auto.
  - simpl. destruct (Z.ltb_spec i size) as [Hlt|Hge].
    2:{ exists size, b1, b2, s. auto. }
    destruct (read_from_shadow_cases (u32 (addr + i)) s) as (r & s1 & E & _).
    unfold bind. rewrite E.
    destruct (Z.ltb_spec r 0) as [Hneg|Hpos].
    { exists r, b1, b2, s1. auto. }
    apply IH.
    + lia.
    + intros k Hk. unfold memcpy4.
      destruct (Z.gtb_spec r 0) as [Hr|Hr].
      * unfold memcpy4. destruct ((i <=? k) && (k <? i + 4)); auto.
      * assert (r = 0) by lia. subst r.
        destruct ((i <=? k) && (k <? i + 4)) eqn:Ein.
        -- rewrite byte_of_zero. apply Hz.
           apply andb_true_iff in Ein. lia.
        -- auto.
    + intros k Hk. destruct (r >? 0); [|apply Hz; lia].
      unfold memcpy4.
      destruct (Z.leb_spec i k), (Z.ltb_spec k (i + 4)); simpl;
        try lia; apply Hz; lia.
Qed.

Lemma read_buf_loop_frame (addr size : Z) (n : nat) :
  forall (i : Z) (b : Mem) (s : world D) r b' s',
  i mod 4 = 0 ->
  read_buf_loop D n addr b size i s = Some ((r, b'), s') ->
  forall k, k < i \/ 4 * ((size + 3) / 4) <= k -> b' k = b k.
Proof.
  induction n as [|n IH]; intros i b s r b' s' Hi E k Hk; simpl in E;
    destruct (Z.ltb_spec i size) as [Hlt|Hge];
    try discriminate; try (injection E as _ <- _; reflexivity).
  unfold bind in E.
  destruct (cvi_efuse_read_from_shadow D (u32 (addr + i)) s)
    as [[r0 s1]|]; [|discriminate].
  destruct (r0 <? 0); [injection E as _ <- _; reflexivity|].
  assert (Hi4 : (i + 4) mod 4 = 0).
  { rewrite Zplus_mod, Hi. reflexivity. }
  rewrite (IH _ _ _ _ _ _ Hi4 E k) by lia.
  destruct (r0 >? 0); [|reflexivity].
  unfold memcpy4.
  destruct (Z.leb_spec i k), (Z.ltb_spec k (i + 4)); simpl;
    try reflexivity. exfalso. clear IH E. Z.div_mod_to_equations. lia.
Qed.

(** The buffer read against the specified one, for a non-null buffer and
    any requested size: the size is clamped to 256, the first (clamped size)
    bytes are zeroed, the shadow words at addr, addr+4, ... are read and
    copied, a failing read stops the loop with its error.  Both return the
    same code in the same world, their buffers agree on every byte below the
    clamped size, and the code is either an error or the clamped size; so a
    request for 1000 bytes that succeeds returns 256.  No byte before the
    buffer is written, and none from the clamped size rounded up to a
    multiple of 4 onwards.  The bytes between the clamped size and that
    multiple of 4 are left open here: the last stride can write them. *)
Theorem read_buf_clamps_zero_fills_and_copies (addr : Z) (b : Mem) (size : Z)
    (s : world D) :
  0 <= size ->
  exists r b' bs s',
    cvi_efuse_read_buf D addr (Some b) size s = Some ((r, Some b'), s') /\
    read_buffer D addr b size s = Some ((r, bs), s') /\
    (forall k, k < Z.min size EFUSE_SIZE -> b' k = bs k) /\
    (r < 0 \/ r = Z.min size EFUSE_SIZE) /\
    (size = 1000 -> 0 <= r -> r = 256) /\
    (forall k, k < 0 \/ 4 * ((Z.min size EFUSE_SIZE + 3) / 4) <= k ->
               b' k = b k).
Proof.
  intros Hs. unfold cvi_efuse_read_buf, read_buffer.
  assert (Hc : (if size >? EFUSE_SIZE then EFUSE_SIZE else size)
               = Z.min size EFUSE_SIZE).
  { destruct (Z.gtb_spec size EFUSE_SIZE); lia. }
  rewrite Hc.
  destruct (read_buf_loop_refines addr (Z.min size EFUSE_SIZE) 64 0
              (memset b 0 (Z.min size EFUSE_SIZE))
              (memset b 0 (Z.min size EFUSE_SIZE)) s)
    as (r & b1 & b2 & s' & E1 & E2 & Hag & Hr).
  - unfold EFUSE_SIZE. lia.
  - reflexivity.
  - intros k Hk. unfold memset.
    destruct (Z.leb_spec 0 k), (Z.ltb_spec k (Z.min size EFUSE_SIZE));
      simpl; try lia; reflexivity.
  - exists r, b1, b2, s'.
    split; [unfold bind; rewrite E1; reflexivity|].
    split; [exact E2|]. split; [exact Hag|].
    split; [exact Hr|]. split.
    + intros -> Hr0. unfold EFUSE_SIZE in Hr. lia.
    + intros k Hk.
      rewrite (read_buf_loop_frame _ _ 64 0 _ _ _ _ _ eq_refl E1 k Hk).
      unfold memset.
      destruct (Z.leb_spec 0 k), (Z.ltb_spec k (Z.min size EFUSE_SIZE));
        simpl; try reflexivity.
      exfalso. Z.div_mod_to_equations. lia.
Qed.

(** C10 (as amended): the clamp only bounds the size.  For an address that
    is a nonzero multiple of 4 and a positive size such that the address plus
    the clamped size exceeds 256, [cvi_efuse_read_buf] returns an error and
    never a byte count: some stride reaches an address at or beyond 256,
    unless a clock failure of an earlier shadow read has already ended the
    loop; where the clock never fails the error is -EFAULT. *)
Theorem read_buf_past_end_fails (addr : Z) (b : Mem) (size : Z) (s : world D) :
  0 <= addr < 2 ^ 32 -> addr <> 0 -> addr mod 4 = 0 -> 0 < size ->
  addr + Z.min size EFUSE_SIZE > EFUSE_SIZE ->
  (exists i, 0 <= i < Z.min size EFUSE_SIZE /\ i mod 4 = 0 /\
             u32 (addr + i) >= EFUSE_SIZE) /\
  exists r b' s',
    cvi_efuse_read_buf D addr (Some b) size s = Some ((r, Some b'), s') /\
    r < 0 /\
    ((forall h, fst (clk_prepare_enable D h) = 0) -> r = - EFAULT).
Proof.
  intros Ha Hnz Hal Hs Hover.
  unfold cvi_efuse_read_buf.
  assert (Hc : (if size >? EFUSE_SIZE then EFUSE_SIZE else size)
               = Z.min size EFUSE_SIZE).
  { destruct (Z.gtb_spec size EFUSE_SIZE); lia. }
  rewrite Hc. set (n := Z.min size EFUSE_SIZE) in *.
  set (i0 := if addr >=? EFUSE_SIZE then 0 else EFUSE_SIZE - addr).
  assert (Hi0 : 0 <= i0 < n /\ i0 mod 4 = 0 /\ u32 (addr + i0) >= EFUSE_SIZE).
  { unfold i0, EFUSE_SIZE in *. destruct (Z.geb_spec addr 256).
    - repeat split; try lia. unfold u32. rewrite Z.add_0_r, Z.mod_small; lia.
    - repeat split; try lia.
      + rewrite Zminus_mod, Hal. reflexivity.
      + replace (addr + (256 - addr)) with 256 by lia.
        unfold u32. rewrite Z.mod_small; lia. }
  split; [exists i0; exact Hi0|].
  destruct Hi0 as (Hi0 & Hi0al & Hout).
  assert (L : forall (j m : nat) (i : Z) (bf : Mem) (s0 : world D),
             i + 4 * Z.of_nat j = i0 -> (j < m)%nat ->
             exists r b' s',
               read_buf_loop D m addr bf n i s0 = Some ((r, b'), s') /\
               r < 0 /\
               ((forall h, fst (clk_prepare_enable D h) = 0) -> r = - EFAULT)).
  { induction j as [|j IH]; intros m i bf s0 Hi Hm;
      (destruct m as [|m]; [lia|]); simpl;
      (destruct (Z.ltb_spec i n) as [Hlt|Hge]; [|lia]);
      destruct (read_from_shadow_cases (u32 (addr + i)) s0)
        as (r & s1 & E & Hcase); unfold bind; rewrite E.
    - replace i with i0 in * by lia.
      destruct Hcase as [(-> & _ & _)|(Hin & _)]; [|lia].
      exists (- EFAULT), bf, s1. unfold EFAULT. simpl. auto with zarith.
    - destruct (Z.ltb_spec r 0) as [Hneg|Hpos].
      + exists r, bf, s1. repeat split; auto.
        intros Hclk.
        destruct Hcase as [(-> & _ & _)|(_ & _ & [(Hr & Hrc)|(Hr & _)])];
          [reflexivity | | lia].
        rewrite Hclk in Hrc. contradiction.
      + apply IH; lia. }
  assert (Hj : i0 = 4 * (i0 / 4)) by (apply Z.div_exact; lia).
  destruct (L (Z.to_nat (i0 / 4)) 64%nat 0 (memset b 0 n) s)
    as (r & b' & s' & E & Hr & Hclk).
  - lia.
  - unfold n, EFUSE_SIZE in *. lia.
  - exists r, b', s'. unfold bind. rewrite E. simpl. auto.
Qed.

End ReadPath.

(** ** The driver on the model of the macro *)

Lemma sim_responsive : responsive sim 2.
Proof.
  intros [h l]. unfold cvi_efuse_wait_for_ready.
  cbn -[u32]. destruct (busy h); cbn; discriminate.
Qed.

Lemma decode_all :
  forallb (fun w => forallb (fun k => forallb (decode_ok w k) (range 2))
                            (range 32)) (range 64) = true.
Proof. vm_compute. reflexivity. Qed.

Lemma decode_fields (w k j : Z) :
  0 <= w < 64 -> 0 <= k < 32 -> 0 <= j <= 1 ->
  row_of (prog_phy_addr w k j) = 2 * w + j /\
  bit_of (prog_phy_addr w k j) = k /\
  phy_row w j = 2 * w + j /\
  row_of (phy_row w j) = 2 * w + j.
Proof.
  intros Hw Hk Hj. pose proof decode_all as H.
  rewrite forallb_forall in H. specialize (H w (in_range 64 w Hw)).
  rewrite forallb_forall in H. specialize (H k (in_range 32 k Hk)).
  rewrite forallb_forall in H.
  assert (Hin : In j (range 2)) by (apply in_range; lia).
  specialize (H j Hin). unfold decode_ok in H.
  rewrite !andb_true_iff, !Z.eqb_eq in H. tauto.
Qed.

Lemma sim_wait (h : fuse_hw) (l : list event) :
  exists l', cvi_efuse_wait_for_ready sim 2 (h, l)
             = Some (tt, (with_busy false h, l')).
Proof.
  unfold cvi_efuse_wait_for_ready. cbn.
  destruct (busy h); cbn; eexists; reflexivity.
Qed.

Lemma sim_read_from_phy (a : Z) (ty : EFUSE_READ_TYPE) (h : fuse_hw)
    (l : list event) :
  ty = EFUSE_AREAD \/ ty = EFUSE_MREAD ->
  let v := match ty with
           | EFUSE_AREAD => u32 (fuse h (row_of a))
           | _ => u32 (Z.land (fuse h (row_of a))
                              (Z.lnot (weak h (row_of a))))
           end in
  exists h' t0,
    steps (cvi_efuse_read_from_phy sim 2 a ty) (h, l) v
          (t0 ++ [EvRead EFUSE_RD_DATA v])
          (h', l ++ t0 ++ [EvRead EFUSE_RD_DATA v]) /\
    adr_writes t0 = [a] /\
    fuse h' = fuse h /\ same_faults h h' /\ shadow h' = shadow h.
Proof.
  intros Hty v.
  destruct (read_from_phy_steps sim 2 sim_responsive a ty (h, l) Hty)
    as (v' & t0 & [h' l'] & [E L] & _ & A & _).
  assert (C : exists h1 l1,
             cvi_efuse_read_from_phy sim 2 a ty (h, l) = Some (v, (h1, l1)) /\
             fuse h1 = fuse h /\ same_faults h h1 /\ shadow h1 = shadow h).
  { subst v. destruct Hty; subst ty; eexists; eexists; (split;
      [ unfold cvi_efuse_read_from_phy; cbn -[u32 row_of]; reflexivity
      | cbn; unfold same_faults; repeat split ]). }
  destruct C as (h1 & l1 & C & F & SF & SH).
  rewrite C in E. injection E as Ev Eh El. subst v' h' l'.
  cbn [log snd] in L. subst l1.
  exists h1, t0. repeat split; auto; try apply SF.
Qed.

Lemma sim_prog_bit (w k j : Z) (h : fuse_hw) (l : list event) :
  0 <= w < 64 -> 0 <= k < 32 -> 0 <= j <= 1 ->
  exists h' l',
    cvi_efuse_prog_bit sim 2 w k j (h, l) = Some (tt, (h', l')) /\
    fuse h' = burn (dud h) (fuse h) (2 * w + j) k /\
    same_faults h h' /\ shadow h' = shadow h.
Proof.
  intros Hw Hk Hj.
  destruct (decode_fields w k j Hw Hk Hj) as (Hrow & Hbit & _).
  destruct (sim_wait h l) as (l1 & W).
  eexists. eexists. split.
  - unfold cvi_efuse_prog_bit, bind. rewrite W.
    cbn -[prog_phy_addr row_of bit_of]. reflexivity.
  - cbn -[prog_phy_addr row_of bit_of]. rewrite Hrow, Hbit.
    unfold same_faults. repeat split.
Qed.

Lemma sim_prog_loop (w zb j : Z) (n : nat) :
  0 <= w < 64 -> 0 <= j <= 1 ->
  forall (i : nat) (h : fuse_hw) (l : list event),
  (i + n <= 32)%nat ->
  exists h' l',
    for_loop n (Z.of_nat i)
      (fun k _ => if Z.land (Z.shiftr zb k) 1 =? 0 then ret tt
                  else cvi_efuse_prog_bit sim 2 w k j) tt (h, l)
      = Some (tt, (h', l')) /\
    fuse h' = burn_bits n (Z.of_nat i) (dud h) (fuse h) (2 * w + j) zb /\
    same_faults h h' /\ shadow h' = shadow h.
Proof.
  intros Hw Hj. induction n as [|n IH]; intros i h l Hi.
  - exists h, l. unfold same_faults. repeat split.
  - cbn [for_loop burn_bits].
    replace (Z.of_nat i + 1) with (Z.of_nat (S i)) by lia.
    destruct (Z.land (Z.shiftr zb (Z.of_nat i)) 1 =? 0).
    + destruct (IH (S i) h l) as (h' & l' & E & F & SF & SH); [lia|].
      exists h', l'. auto.
    + destruct (sim_prog_bit w (Z.of_nat i) j h l) as (h1 & l1 & E1 & F1 & SF1 & SH1);
        try lia.
      destruct (IH (S i) h1 l1) as (h' & l' & E & F & SF & SH); [lia|].
      exists h', l'. unfold bind. rewrite E1. split; [exact E|].
      destruct SF1 as (D1 & W1 & C1 & K1). destruct SF as (D2 & W2 & C2 & K2).
      rewrite F, D1, F1. unfold same_faults. repeat split; congruence.
Qed.

Lemma testbit_one_shift (i k : Z) :
  0 <= i -> 0 <= k -> Z.testbit (Z.shiftl 1 i) k = (k =? i).
Proof.
  intros Hi Hk. rewrite Z.shiftl_spec by lia.
  destruct (Z.eqb_spec k i) as [->|Hne].
  - now rewrite Z.sub_diag.
  - destruct (Z.lt_ge_cases k i).
    + apply Z.testbit_neg_r. lia.
    + apply Z.bits_above_log2; simpl; lia.
Qed.

Lemma testbit_burn_bits (d : Z -> Z) (r zb : Z) (n : nat) :
  forall (i : nat) (f : Z -> Z) (r' k : Z),
  0 <= k ->
  Z.testbit (burn_bits n (Z.of_nat i) d f r zb r') k
  = if r' =? r
    then Z.testbit (f r') k
         || ((Z.of_nat i <=? k) && (k <? Z.of_nat i + Z.of_nat n)
             && Z.testbit zb k && negb (Z.testbit (d r') k))
    else Z.testbit (f r') k.
Proof.
  induction n as [|n IH]; intros i f r' k Hk.
  - cbn [burn_bits]. destruct (r' =? r); [|reflexivity].
    replace ((Z.of_nat i <=? k) && (k <? Z.of_nat i + Z.of_nat 0)) with false.
    + now rewrite orb_false_r.
    + symmetry. apply andb_false_iff.
      destruct (Z.leb_spec (Z.of_nat i) k); [right|left; reflexivity].
      apply Z.ltb_ge. lia.
  - cbn [burn_bits].
    replace (Z.of_nat i + 1) with (Z.of_nat (S i)) by lia.
    rewrite IH by exact Hk. rewrite bit_test by lia.
    destruct (Z.eqb_spec r' r) as [->|Hne].
    + destruct (Z.testbit zb (Z.of_nat i)) eqn:Ezb; cbn [negb].
      * unfold burn. rewrite Z.eqb_refl, Z.lor_spec, Z.land_spec,
          Z.lnot_spec, testbit_one_shift by lia.
        destruct (Z.eqb_spec k (Z.of_nat i)) as [->|Hk'].
        -- rewrite Ezb.
           replace (Z.of_nat i <=? Z.of_nat i) with true
             by (symmetry; apply Z.leb_le; lia).
           replace (Z.of_nat i <? Z.of_nat i + Z.of_nat (S n)) with true
             by (symmetry; apply Z.ltb_lt; lia).
           replace (Z.of_nat (S i) <=? Z.of_nat i) with false
             by (symmetry; apply Z.leb_gt; lia).
           cbn. now rewrite orb_false_r.
        -- cbn [andb]. rewrite orb_false_r. f_equal. f_equal. f_equal.
           destruct (Z.leb_spec (Z.of_nat (S i)) k),
                    (Z.leb_spec (Z.of_nat i) k),
                    (Z.ltb_spec k (Z.of_nat (S i) + Z.of_nat n)),
                    (Z.ltb_spec k (Z.of_nat i + Z.of_nat (S n)));
             try reflexivity; lia.
      * f_equal.
        destruct (Z.eqb_spec k (Z.of_nat i)) as [->|Hk'].
        -- rewrite Ezb.
           replace (Z.of_nat (S i) <=? Z.of_nat i) with false
             by (symmetry; apply Z.leb_gt; lia).
           cbn. now rewrite !andb_false_r.
        -- f_equal. f_equal.
           destruct (Z.leb_spec (Z.of_nat (S i)) k),
                    (Z.leb_spec (Z.of_nat i) k),
                    (Z.ltb_spec k (Z.of_nat (S i) + Z.of_nat n)),
                    (Z.ltb_spec k (Z.of_nat i + Z.of_nat (S n)));
             try reflexivity; lia.
    + destruct (Z.testbit zb (Z.of_nat i)); cbn [negb]; [|reflexivity].
      unfold burn. apply Z.eqb_neq in Hne. now rewrite Hne.
Qed.

Lemma zero_bits_high (val x k : Z) :
  32 <= k -> Z.testbit (zero_bits val x) k = false.
Proof.
  intros Hk. unfold zero_bits.
  rewrite Z.land_spec, testbit_u32_high by exact Hk. apply andb_false_r.
Qed.

Lemma burn_bits_row (d f : Z -> Z) (r val r' : Z) :
  burn_bits 32 0 d f r (zero_bits val (u32 (f r))) r'
  = burn_row d f r val r'.
Proof.
  apply Z.bits_inj'. intros k Hk.
  change 0 with (Z.of_nat 0) at 1.
  rewrite testbit_burn_bits by exact Hk.
  unfold burn_row. destruct (Z.eqb_spec r' r) as [->|Hne]; [|reflexivity].
  unfold blow. rewrite Z.lor_spec, Z.land_spec, Z.lnot_spec by exact Hk.
  destruct (Z.leb_spec (Z.of_nat 0) k) as [_|Hlt]; [|lia].
  destruct (Z.ltb_spec k (Z.of_nat 0 + Z.of_nat 32)) as [Hlt|Hge].
  - reflexivity.
  - rewrite zero_bits_high by lia. reflexivity.
Qed.

(** A pass on the model: the value checked is the margin read of the row
    after the pulses; the array changes by [burn_row]. *)
Lemma sim_write_word_pass (w val j e : Z) (h : fuse_hw) (l : list event) :
  0 <= w < 64 -> 0 <= j <= 1 ->
  exists h' t,
    steps (write_word_pass sim 2 w val j e) (h, l)
      (check_row val
         (u32 (Z.land (fuse h' (2 * w + j)) (Z.lnot (weak h (2 * w + j))))) e)
      t (h', l ++ t) /\
    (forall r, fuse h' r = burn_row (dud h) (fuse h) (2 * w + j) val r) /\
    same_faults h h' /\ shadow h' = shadow h /\
    adr_writes t =
      [2 * w + j]
      ++ map (fun k => prog_phy_addr w k j)
             (set_bits (zero_bits val (u32 (fuse h (2 * w + j)))))
      ++ [2 * w + j].
Proof.
  intros Hw Hj.
  destruct (decode_fields w 0 j Hw ltac:(lia) Hj) as (_ & _ & Hrow & Hdec).
  destruct (sim_read_from_phy (phy_row w j) EFUSE_AREAD h l (or_introl eq_refl))
    as (h1 & t1 & R1 & A1 & F1 & SF1 & SH1).
  cbv zeta in R1. rewrite Hdec in R1.
  set (row_val := u32 (fuse h (2 * w + j))) in *.
  destruct (prog_row_steps sim 2 sim_responsive w (zero_bits val row_val) j
              (h1, l ++ t1 ++ [EvRead EFUSE_RD_DATA row_val]))
    as (t2 & [h2 l2] & [P L2] & A2 & _).
  destruct (sim_prog_loop w (zero_bits val row_val) j 32 Hw Hj 0 h1
              (l ++ t1 ++ [EvRead EFUSE_RD_DATA row_val]))
    as (h2' & l2' & P' & F2 & SF2 & SH2); [lia|].
  pose proof (eq_trans (eq_sym P) P') as Q.
  injection Q as <- <-.
  cbn [log snd] in L2. subst l2.
  destruct (sim_read_from_phy (phy_row w j) EFUSE_MREAD h2
              ((l ++ t1 ++ [EvRead EFUSE_RD_DATA row_val]) ++ t2)
              (or_intror eq_refl))
    as (h3 & t3 & R2 & A3 & F3 & SF3 & SH3).
  cbv zeta in R2. rewrite Hdec in R2.
  destruct SF1 as (D1 & W1 & C1 & K1). destruct SF2 as (D2 & W2 & C2 & K2).
  destruct SF3 as (D3 & W3 & C3 & K3).
  set (nv := u32 (Z.land (fuse h2 (2 * w + j)) (Z.lnot (weak h2 (2 * w + j))))) in *.
  exists h3, ((t1 ++ [EvRead EFUSE_RD_DATA row_val]) ++ t2
              ++ (t3 ++ [EvRead EFUSE_RD_DATA nv])).
  assert (Hnv : u32 (Z.land (fuse h3 (2 * w + j)) (Z.lnot (weak h (2 * w + j)))) = nv).
  { unfold nv. rewrite F3. do 2 f_equal. f_equal. congruence. }
  rewrite Hnv.
  split; [|split; [|split; [|split]]].
  - assert (St : steps (write_word_pass sim 2 w val j e) (h, l)
                   (check_row val nv e)
                   ((t1 ++ [EvRead EFUSE_RD_DATA row_val]) ++ t2
                    ++ ((t3 ++ [EvRead EFUSE_RD_DATA nv]) ++ []))
                   (h3, ((l ++ t1 ++ [EvRead EFUSE_RD_DATA row_val]) ++ t2)
                        ++ t3 ++ [EvRead EFUSE_RD_DATA nv])).
    { unfold write_word_pass.
      eapply steps_bind; [exact R1|].
      eapply steps_bind; [split; [exact P | reflexivity]|].
      eapply steps_bind; [exact R2 | apply steps_ret]. }
    rewrite app_nil_r in St. destruct St as [E L]. split.
    + rewrite E. do 3 f_equal. now rewrite <- !app_assoc.
    + cbn [log snd]. reflexivity.
  - intros r. rewrite F3, F2, D1, F1. subst row_val.
    apply burn_bits_row.
  - unfold same_faults. repeat split; congruence.
  - congruence.
  - rewrite !adr_writes_app, A1, A2, A3, Hrow. reflexivity.
Qed.

(** The whole of [cvi_efuse_write_word] on the model. *)
Lemma sim_write_word (w val : Z) (h : fuse_hw) (l : list event) :
  0 <= w < 64 ->
  exists h' t,
    steps (cvi_efuse_write_word sim 2 w val) (h, l)
      (if check_row val
            (u32 (Z.land (fuse h' (2 * w + 1)) (Z.lnot (weak h (2 * w + 1)))))
            (check_row val
               (u32 (Z.land (fuse h' (2 * w + 0)) (Z.lnot (weak h (2 * w + 0)))))
               0) >=? 2
       then - EIO else 0)
      t (h', l ++ t) /\
    (forall r, fuse h' r = burn_word (dud h) (fuse h) w val r) /\
    same_faults h h' /\
    (forall k, shadow h' k = mirror (compose h) (fuse h') k) /\
    adr_writes t =
      ([2 * w + 0]
       ++ map (fun k => prog_phy_addr w k 0)
              (set_bits (zero_bits val (u32 (fuse h (2 * w + 0)))))
       ++ [2 * w + 0])
      ++ ([2 * w + 1]
          ++ map (fun k => prog_phy_addr w k 1)
                 (set_bits (zero_bits val (u32 (fuse h (2 * w + 1)))))
          ++ [2 * w + 1]) /\
    exists t', t = t' ++ [EvWrite EFUSE_MODE EFUSE_CMD_REFRESH].
Proof.
  intros Hw.
  destruct (decode_fields w 0 0 Hw ltac:(lia) ltac:(lia)) as (_ & _ & Hr0 & _).
  destruct (decode_fields w 0 1 Hw ltac:(lia) ltac:(lia)) as (_ & _ & Hr1 & _).
  destruct (sim_write_word_pass w val 0 0 h l Hw ltac:(lia))
    as (h1 & t0 & P0 & F1 & SF1 & SH1 & A0).
  destruct (sim_write_word_pass w val 1
              (check_row val
                 (u32 (Z.land (fuse h1 (2 * w + 0))
                              (Z.lnot (weak h (2 * w + 0))))) 0)
              h1 (l ++ t0) Hw ltac:(lia))
    as (h2 & t1 & P1 & F2 & SF2 & SH2 & A1).
  destruct SF1 as (D1 & W1 & C1 & K1). destruct SF2 as (D2 & W2 & C2 & K2).
  assert (Hrow0 : fuse h2 (2 * w + 0) = fuse h1 (2 * w + 0)).
  { rewrite F2. unfold burn_row.
    destruct (Z.eqb_spec (2 * w + 0) (2 * w + 1)); [lia | reflexivity]. }
  assert (Hrow1 : fuse h1 (2 * w + 1) = fuse h (2 * w + 1)).
  { rewrite F1. unfold burn_row.
    destruct (Z.eqb_spec (2 * w + 1) (2 * w + 0)); [lia | reflexivity]. }
  exists (with_shadow (mirror (compose h2) (fuse h2)) h2),
         (t0 ++ t1 ++ [EvWrite EFUSE_MODE EFUSE_CMD_REFRESH]).
  cbn [fuse with_shadow shadow].
  rewrite Hrow0, <- W1.
  split; [|split; [|split; [|split; [|split]]]].
  - assert (St : steps (cvi_efuse_write_word sim 2 w val) (h, l)
        (if check_row val
              (u32 (Z.land (fuse h2 (2 * w + 1)) (Z.lnot (weak h1 (2 * w + 1)))))
              (check_row val
                 (u32 (Z.land (fuse h1 (2 * w + 0))
                              (Z.lnot (weak h (2 * w + 0))))) 0) >=? 2
         then - EIO else 0)
        ((t0 ++ t1 ++ []) ++ [EvWrite EFUSE_MODE EFUSE_CMD_REFRESH] ++ [])
        (with_shadow (mirror (compose h2) (fuse h2)) h2,
         ((l ++ t0) ++ t1) ++ [EvWrite EFUSE_MODE EFUSE_CMD_REFRESH])).
    { unfold cvi_efuse_write_word.
      eapply steps_bind.
      - unfold write_word_rows. cbn [for_loop].
        eapply steps_bind; [exact P0|].
        eapply steps_bind; [exact P1 | apply steps_ret].
      - eapply steps_bind; [|apply steps_ret].
        split; reflexivity. }
    rewrite !app_nil_r in St. destruct St as [E _]. split.
    + rewrite E. rewrite W1. do 3 f_equal. now rewrite <- !app_assoc.
    + reflexivity.
  - intros r. rewrite F2, D1. unfold burn_word. rewrite Hr0, Hr1.
    unfold burn_row. now rewrite F1.
  - unfold same_faults. cbn. repeat split; congruence.
  - intros k. now rewrite K2, K1.
  - rewrite !adr_writes_app, A0, A1, Hrow1. cbn [adr_writes].
    now rewrite <- !app_assoc.
  - exists (t0 ++ t1). now rewrite <- app_assoc.
Qed.

Lemma sim_read_from_shadow (addr : Z) (h : fuse_hw) (l : list event) :
  0 <= addr < 256 -> addr mod 4 = 0 -> clk_ret h = 0 ->
  cvi_efuse_read_from_shadow sim addr (h, l)
  = Some (u32 (shadow h (addr / 4)),
          (h, ((l ++ [EvClkEnable 0])
               ++ [EvRead (EFUSE_SHADOW_REG + addr) (u32 (shadow h (addr / 4)))])
              ++ [EvClkDisable])).
Proof.
  intros Ha Hal Hclk. unfold cvi_efuse_read_from_shadow.
  destruct (Z.geb_spec addr EFUSE_SIZE) as [Hge|_];
    [unfold EFUSE_SIZE in Hge; lia|].
  rewrite Hal. cbn [Z.eqb negb].
  unfold bind, clk_enable. cbn [sim clk_prepare_enable dev fst].
  rewrite Hclk. cbn [Z.eqb negb log snd].
  unfold mmio_read_32. cbn [sim ioread32 dev fst]. unfold fuse_read.
  unfold EFUSE_SHADOW_REG, EFUSE_SIZE, EFUSE_STATUS, EFUSE_RD_DATA.
  destruct (Z.eqb_spec (256 + addr) 16); [lia|].
  destruct (Z.eqb_spec (256 + addr) 12); [lia|].
  destruct (Z.leb_spec 256 (256 + addr)); [|lia].
  destruct (Z.ltb_spec (256 + addr) (256 + 256)); [|lia].
  cbn [andb]. replace (256 + addr - 256) with addr by lia.
  reflexivity.
Qed.






Lemma testbit_blow (d : Z -> Z) (v r x k : Z) :
  0 <= k ->
  Z.testbit (blow d v r x) k
  = Z.testbit x k
    || ((k <? 32) && Z.testbit v k && negb (Z.testbit x k)
        && negb (Z.testbit (d r) k)).
Proof.
  intros Hk. unfold blow.
  rewrite Z.lor_spec, Z.land_spec, Z.lnot_spec by exact Hk.
  destruct (Z.ltb_spec k 32) as [Hlt|Hge].
  - rewrite testbit_zero_bits, testbit_u32 by lia. reflexivity.
  - rewrite zero_bits_high by lia. reflexivity.
Qed.

Lemma blow_idem (d : Z -> Z) (v r x : Z) :
  blow d v r (blow d v r x) = blow d v r x.
Proof.
  apply Z.bits_inj'. intros k Hk. rewrite !testbit_blow by exact Hk.
  destruct (Z.testbit x k), (k <? 32), (Z.testbit v k),
           (Z.testbit (d r) k); reflexivity.
Qed.

Lemma blow_no_dud (d : Z -> Z) (v r x : Z) :
  d r = 0 -> zero_bits v (u32 (blow d v r x)) = 0.
Proof.
  intros Hd. apply Z.bits_inj'. intros k Hk. rewrite Z.bits_0.
  destruct (Z.lt_ge_cases k 32) as [Hlt|Hge].
  - rewrite testbit_zero_bits, testbit_u32, testbit_blow, Hd, Z.bits_0 by lia.
    destruct (Z.testbit x k), (k <? 32) eqn:E, (Z.testbit v k);
      try reflexivity.
    apply Z.ltb_ge in E. lia.
  - apply zero_bits_high. lia.
Qed.

Lemma burn_word_rows (d f : Z -> Z) (w v r : Z) :
  0 <= w < 64 ->
  burn_word d f w v r
  = if (r =? 2 * w + 0) || (r =? 2 * w + 1) then blow d v r (f r) else f r.
Proof.
  intros Hw.
  destruct (decode_fields w 0 0 Hw ltac:(lia) ltac:(lia)) as (_ & _ & Hr0 & _).
  destruct (decode_fields w 0 1 Hw ltac:(lia) ltac:(lia)) as (_ & _ & Hr1 & _).
  unfold burn_word, burn_row. rewrite Hr0, Hr1.
  destruct (Z.eqb_spec r (2 * w + 0)), (Z.eqb_spec r (2 * w + 1));
    try reflexivity; lia.
Qed.

Lemma burn_word_idem (d f g : Z -> Z) (w v : Z) :
  0 <= w < 64 ->
  (forall r, g r = burn_word d f w v r) ->
  forall r, burn_word d g w v r = g r.
Proof.
  intros Hw Hg r. rewrite burn_word_rows, Hg, burn_word_rows by exact Hw.
  destruct ((r =? 2 * w + 0) || (r =? 2 * w + 1)); [|reflexivity].
  apply blow_idem.
Qed.

(** C7: on the model of the macro, for a valid word address, a second
    [cvi_efuse_write_word] with the same arguments leaves every physical row
    and every shadow word as the first call left them, returns the same
    code, and a shadow read returns the same value after either call.  Where
    the two rows of the word have no dud bit, the second call finds
    zero_bit = 0 in both passes: it writes to ADDR only the row addresses of
    its four reads and no bit address. *)
Theorem write_word_twice_same_array (h : fuse_hw) (l : list event) (w v : Z) :
  0 <= w < 64 ->
  exists r1 h1 t1 r2 h2 t2,
    cvi_efuse_write_word sim 2 w v (h, l) = Some (r1, (h1, l ++ t1)) /\
    cvi_efuse_write_word sim 2 w v (h1, l ++ t1)
      = Some (r2, (h2, (l ++ t1) ++ t2)) /\
    (forall r, fuse h2 r = fuse h1 r) /\
    (forall k, shadow h2 k = shadow h1 k) /\
    r2 = r1 /\
    (forall addr, 0 <= addr < 256 -> addr mod 4 = 0 -> clk_ret h = 0 ->
       exists res s1 s2,
         cvi_efuse_read_from_shadow sim addr (h1, l ++ t1) = Some (res, s1) /\
         cvi_efuse_read_from_shadow sim addr (h2, (l ++ t1) ++ t2)
           = Some (res, s2)) /\
    (dud h (2 * w) = 0 -> dud h (2 * w + 1) = 0 ->
       adr_writes t2 = [2 * w; 2 * w; 2 * w + 1; 2 * w + 1]).
Proof.
  intros Hw.
  destruct (sim_write_word w v h l Hw)
    as (h1 & t1 & [E1 _] & F1 & (D1 & W1 & C1 & K1) & SH1 & _ & _).
  destruct (sim_write_word w v h1 (l ++ t1) Hw)
    as (h2 & t2 & [E2 _] & F2 & (D2 & W2 & C2 & K2) & SH2 & A2 & _).
  assert (Fx : forall r, fuse h2 r = fuse h1 r).
  { intros r. rewrite F2, D1. now apply burn_word_idem with (f := fuse h). }
  assert (Sx : forall k, shadow h2 k = shadow h1 k).
  { intros k. rewrite SH2, SH1, K1. unfold mirror. now rewrite !Fx. }
  rewrite !Fx, W1 in E2.
  do 6 eexists. split; [exact E1|]. split; [exact E2|].
  split; [exact Fx|]. split; [exact Sx|]. split; [reflexivity|]. split.
  - intros addr Ha Hal Hclk.
    rewrite !sim_read_from_shadow by (try assumption; congruence).
    rewrite Sx. do 3 eexists. split; reflexivity.
  - intros Hd0 Hd1. rewrite A2.
    rewrite !F1, !burn_word_rows by exact Hw.
    rewrite !Z.eqb_refl, orb_true_r. cbn [orb].
    rewrite !blow_no_dud by (rewrite ?Z.add_0_r; assumption).
    cbn. now rewrite !Z.add_0_r.
Qed.

(** ** Worked examples on the model *)

(** The scenarios of the specification, on a macro whose shadow word is the
    union of its two rows: 0xFFFFFFFF into word 0 reads back whole; a dud bit
    in one row of word 1 is tolerated; a dud bit in both rows is an I/O
    error. *)
Example write_all_ones_reads_back :
  option_map fst
    (bind (cvi_efuse_write_word sim 2 0 0xFFFFFFFF)
          (fun _ => cvi_efuse_read_from_shadow sim 0) sim0)
  = Some 0xFFFFFFFF.
Proof. vm_compute. reflexivity. Qed.

Example one_row_failure_is_tolerated :
  option_map
    (fun p : Z * world sim =>
       (fst p, fuse (dev (snd p)) 2, fuse (dev (snd p)) 3,
        shadow (dev (snd p)) 1))
    (cvi_efuse_write_word sim 2 1 0xF one_row_dud)
  = Some (0, 0xE, 0xF, 0xF).
Proof. vm_compute. reflexivity. Qed.

Example both_rows_failure_is_an_error :
  option_map (fun p : Z * world sim => (fst p, shadow (dev (snd p)) 1))
    (cvi_efuse_write_word sim 2 1 0xF both_rows_dud)
  = Some (- EIO, 0xE).
Proof. vm_compute. reflexivity. Qed.

(** The ADDR and MODE writes of a whole call that programs bits 0 and 2 of
    word 1 on a blank array. *)
Example write_word_addresses_and_commands :
  option_map
    (fun p : Z * world sim =>
       (fst p, adr_writes (log (snd p)), mode_writes (log (snd p))))
    (cvi_efuse_write_word sim 2 1 0x5 sim0)
  = Some (0, [2; 2; 258; 2; 3; 3; 259; 3],
          [0x10; 0x11; 0x14; 0x14; 0x10; 0x12;
           0x10; 0x11; 0x14; 0x14; 0x10; 0x12; 0x30]).
Proof. vm_compute. reflexivity. Qed.

(** A request for 1000 bytes from address 0 fills 256 bytes, in memory
    order, and leaves the bytes around them alone. *)
Example read_buf_whole_array :
  option_map
    (fun p : Z * option Mem * world sim =>
       (fst (fst p),
        option_map (fun b => [b 0; b 1; b 2; b 3; b 4; b 255; b 256; b (-1)])
                   (snd (fst p))))
    (cvi_efuse_read_buf sim 0 (Some buf7) 1000 loaded)
  = Some (256, Some [0x44; 0x33; 0x22; 0x11; 0x45; 0x11; 7; 7]).
Proof. vm_compute. reflexivity. Qed.

(** A request for 5 bytes returns 5; the second word is still copied
    whole, into bytes 4 to 7. *)
Example read_buf_odd_size_writes_whole_words :
  option_map
    (fun p : Z * option Mem * world sim =>
       (fst (fst p),
        option_map (fun b => [b 4; b 5; b 6; b 7; b 8]) (snd (fst p))))
    (cvi_efuse_read_buf sim 0 (Some buf7) 5 loaded)
  = Some (5, Some [0x45; 0x33; 0x22; 0x11; 7]).
Proof. vm_compute. reflexivity. Qed.

(** ** Instances of the theorems *)

Lemma write_word_fails_iff_both_rows_fail_witness :
  responsive sim 2 /\
  exists r s',
    cvi_efuse_write_word sim 2 1 0xF one_row_dud = Some (r, s') /\
    (r = - EIO \/ r = 0).
Proof.
  split; [exact sim_responsive|].
  destruct (write_word_fails_iff_both_rows_fail sim 2 sim_responsive 1 0xF
              one_row_dud)
    as (sa & nv0 & s1 & sb & nv1 & s2 & e & r &
        _ & _ & _ & _ & _ & E & _ & _ & _ & H & _).
  exists r. eexists. split; [exact E | exact H].
Defined.

Lemma prog_bit_packed_address_witness :
  responsive sim 2 /\
  (0 <= 1 <= 1 ->
   Z.lor (Z.lor (Z.shiftl (Z.land 3 0x1F) 7) (Z.shiftl (Z.land 5 0x3F) 1)) 1
   = (3 mod 32) * 128 + (5 mod 64) * 2 + 1).
Proof.
  split; [exact sim_responsive|].
  intros H.
  exact (proj1 (proj2 (prog_bit_packed_address sim 2 sim_responsive 5 3 1 sim0) H)).
Defined.

Lemma write_word_pass_programs_zero_bits_witness :
  responsive sim 2 /\
  exists e' s', write_word_pass sim 2 1 0x5 0 0 sim0 = Some (e', s').
Proof.
  split; [exact sim_responsive|].
  destruct (write_word_pass_programs_zero_bits sim 2 sim_responsive 1 0x5 0 0
              sim0)
    as (_ & rv & t1 & s1 & t2 & s2 & e' & s' & _ & _ & _ & _ & _ & _ & _ & _ & _
        & E & _).
  exists e', s'. exact E.
Defined.

Lemma write_word_pass_margin_check_witness :
  responsive sim 2 /\
  exists nv sb e' s',
    cvi_efuse_read_from_phy sim 2 (phy_row 1 0) EFUSE_MREAD sb = Some (nv, s') /\
    write_word_pass sim 2 1 0xF 0 0 one_row_dud = Some (e', s') /\
    (e' = 0 + 1 <-> Z.land 0xF nv <> 0xF).
Proof.
  split; [exact sim_responsive|].
  destruct (write_word_pass_margin_check sim 2 sim_responsive 1 0xF 0 0
              one_row_dud)
    as (rv & s1 & s2 & nv & t3 & e' & s' & _ & _ & R & _ & _ & _ & E & H & _).
  exists nv, s2, e', s'. auto.
Defined.

Lemma read_from_shadow_rejects_bad_address_witness :
  (0x101 >= EFUSE_SIZE \/ 0x101 mod 4 <> 0) /\
  cvi_efuse_read_from_shadow sim 0x101 sim0 = Some (- EFAULT, sim0).
Proof.
  assert (H : 0x101 >= EFUSE_SIZE \/ 0x101 mod 4 <> 0)
    by (right; vm_compute; discriminate).
  split; [exact H|].
  exact (read_from_shadow_rejects_bad_address sim 0x101 sim0 H).
Defined.


Lemma write_word_twice_same_array_witness :
  (0 <= 1 < 64) /\
  exists r1 h1 t1 r2 h2 t2,
    cvi_efuse_write_word sim 2 1 0xF one_row_dud = Some (r1, (h1, [] ++ t1)) /\
    cvi_efuse_write_word sim 2 1 0xF (h1, [] ++ t1)
      = Some (r2, (h2, ([] ++ t1) ++ t2)) /\
    (forall r, fuse h2 r = fuse h1 r) /\
    (forall k, shadow h2 k = shadow h1 k) /\ r2 = r1.
Proof.
  assert (H : 0 <= 1 < 64) by lia.
  split; [exact H|].
  destruct (write_word_twice_same_array (blank (dud_at 2 1) no_fault) [] 1 0xF H)
    as (r1 & h1 & t1 & r2 & h2 & t2 & E1 & E2 & F & S & R & _).
  exists r1, h1, t1, r2, h2, t2. auto.
Defined.

Lemma read_buf_clamps_zero_fills_and_copies_witness :
  0 <= 1000 /\
  exists r b' s',
    cvi_efuse_read_buf sim 0 (Some buf7) 1000 loaded = Some ((r, Some b'), s') /\
    (r < 0 \/ r = Z.min 1000 EFUSE_SIZE) /\
    (forall k, k < 0 \/ 4 * ((Z.min 1000 EFUSE_SIZE + 3) / 4) <= k ->
               b' k = buf7 k).
Proof.
  assert (H : 0 <= 1000) by lia.
  split; [exact H|].
  destruct (read_buf_clamps_zero_fills_and_copies sim 0 buf7 1000 loaded H)
    as (r & b' & bs & s' & E & _ & _ & Hr & _ & Hf).
  exists r, b', s'. auto.
Defined.

Lemma read_buf_past_end_fails_witness :
  (0 <= 4 < 2 ^ 32) /\ 4 <> 0 /\ 4 mod 4 = 0 /\ 0 < 1000 /\
  4 + Z.min 1000 EFUSE_SIZE > EFUSE_SIZE /\
  exists r b' s',
    cvi_efuse_read_buf sim 4 (Some buf7) 1000 loaded = Some ((r, Some b'), s') /\
    r < 0.
Proof.
  assert (H1 : 0 <= 4 < 2 ^ 32) by lia.
  assert (H2 : 4 <> 0) by lia.
  assert (H3 : 4 mod 4 = 0) by reflexivity.
  assert (H4 : 0 < 1000) by lia.
  assert (H5 : 4 + Z.min 1000 EFUSE_SIZE > EFUSE_SIZE) by (vm_compute; reflexivity).
  repeat (split; [assumption|]).
  destruct (read_buf_past_end_fails sim 4 buf7 1000 loaded H1 H2 H3 H4 H5)
    as (_ & r & b' & s' & E & Hr & _).
  exists r, b', s'. auto.
Defined.

(** ** Where the code departs from the claims *)

(** C5 as stated asks for two distinct error kinds.  The out-of-range
    address 260 and the misaligned address 2 are refused with the same
    code. *)
Lemma shadow_read_error_codes_coincide :
  cvi_efuse_read_from_shadow sim 260 sim0 = Some (-14, sim0) /\
  cvi_efuse_read_from_shadow sim 2 sim0 = Some (-14, sim0) /\
  ~ (forall r1 r2 s1 s2,
       cvi_efuse_read_from_shadow sim 260 sim0 = Some (r1, s1) ->
       cvi_efuse_read_from_shadow sim 2 sim0 = Some (r2, s2) ->
       r1 <> r2).
Proof.
  split; [reflexivity|]. split; [reflexivity|].
  intros H. exact (H (-14) (-14) sim0 sim0 eq_refl eq_refl eq_refl).
Qed.


(** C10 as stated covers a request of size 0 at the aligned address 260:
    260 + 0 exceeds 256, yet no iteration runs, nothing is read and the call
    returns 0, which is not an error. *)
Lemma read_buf_past_end_empty_request_succeeds :
  260 <> 0 /\ 260 mod 4 = 0 /\ 260 + Z.min 0 EFUSE_SIZE > EFUSE_SIZE /\
  (exists b', cvi_efuse_read_buf sim 260 (Some buf7) 0 sim0
              = Some ((0, Some b'), sim0)) /\
  ~ (forall r b' s',
       cvi_efuse_read_buf sim 260 (Some buf7) 0 sim0 = Some ((r, b'), s') ->
       r < 0).
Proof.
  split; [discriminate|]. split; [reflexivity|]. split; [reflexivity|].
  split; [eexists; reflexivity|].
  intros H. specialize (H 0 _ sim0 eq_refl). lia.
Qed.

(** * Further properties *)

(** ** The busy-wait and the register primitives *)

Lemma wait_polls_stuck (D : Device) :
  (forall h, Z.land (u32 (fst (ioread32 D EFUSE_STATUS h))) EFUSE_BIT_BUSY
             <> 0) ->
  forall (n : nat) (s : world D), wait_polls D n s = None.
Proof.
  intros Hb. induction n as [|n IH]; intros s; [reflexivity|].
  simpl. unfold bind, mmio_read_32.
  pose proof (Hb (dev s)) as H.
  destruct (ioread32 D EFUSE_STATUS (dev s)) as [v h]. simpl fst in H.
  apply Z.eqb_neq in H. rewrite H. apply IH.
Qed.

(** The busy-wait has no timeout: on a macro whose busy flag never clears
    it does not return, whatever the polling budget, and neither does any
    operation that waits: programming a bit, a physical read, a word
    write. *)
Theorem busy_wait_never_times_out (D : Device) (fuel : nat) (s : world D)
    (w b r a val : Z) (ty : EFUSE_READ_TYPE) :
  (forall h, Z.land (u32 (fst (ioread32 D EFUSE_STATUS h))) EFUSE_BIT_BUSY
             <> 0) ->
  cvi_efuse_wait_for_ready D fuel s = None /\
  cvi_efuse_prog_bit D fuel w b r s = None /\
  cvi_efuse_read_from_phy D fuel a ty s = None /\
  cvi_efuse_write_word D fuel w val s = None.
Proof.
  intros Hb.
  assert (W : forall s0, cvi_efuse_wait_for_ready D fuel s0 = None)
    by (intros s0; apply wait_polls_stuck; exact Hb).
  assert (R : forall a0 ty0 s0, cvi_efuse_read_from_phy D fuel a0 ty0 s0 = None).
  { intros a0 ty0 s0. unfold cvi_efuse_read_from_phy, cvi_efuse_power_on.
    simpl (1 =? 0). cbv iota. unfold mmio_setbits_32.
    rewrite bind_assoc. unfold bind at 1. unfold mmio_read_32.
    destruct (ioread32 D EFUSE_MODE (dev s0)) as [v h].
    unfold bind at 1. unfold mmio_write_32 at 1.
    unfold bind at 1. now rewrite W. }
  split; [apply W|]. split; [|split; [apply R|]].
  - unfold cvi_efuse_prog_bit, bind. now rewrite W.
  - unfold cvi_efuse_write_word, write_word_rows. cbn [for_loop].
    unfold bind at 1. unfold bind at 1. unfold write_word_pass at 1.
    unfold bind at 1. now rewrite R.
Qed.

Lemma status_polls (D : Device) (n : nat) :
  forall s s', wait_polls D n s = Some (tt, s') ->
  exists vs v,
    log s' = log s ++ map (EvRead EFUSE_STATUS) (vs ++ [v]) /\
    Forall (fun x => Z.land x EFUSE_BIT_BUSY <> 0) vs /\
    Z.land v EFUSE_BIT_BUSY = 0 /\ (length vs < n)%nat.
Proof.
  induction n as [|n IH]; intros s s' H; [discriminate|].
  simpl in H. unfold bind in H.
  destruct (steps_read D EFUSE_STATUS s) as (v & s1 & [R L] & _).
  rewrite R in H.
  destruct (Z.eqb_spec (Z.land v EFUSE_BIT_BUSY) 0) as [E|E].
  - inversion H; subst. exists [], v. simpl. repeat split; auto. lia.
  - destruct (IH _ _ H) as (vs & v' & L' & F & V & Len).
    exists (v :: vs), v'. repeat split; auto.
    + rewrite L', L, <- app_assoc. reflexivity.
    + simpl. lia.
Qed.

(** When the busy-wait returns it has only read STATUS: every value but
    the last had the busy bit set, the last had it clear, and there were at
    most [fuel] polls.  It writes no register. *)
Theorem busy_wait_only_polls_status (D : Device) (fuel : nat)
    (s s' : world D) :
  cvi_efuse_wait_for_ready D fuel s = Some (tt, s') ->
  exists vs v,
    log s' = log s ++ map (EvRead EFUSE_STATUS) (vs ++ [v]) /\
    Forall (fun x => Z.land x EFUSE_BIT_BUSY <> 0) vs /\
    Z.land v EFUSE_BIT_BUSY = 0 /\ (length vs < fuel)%nat.
Proof. apply status_polls. Qed.

(** [cvi_efuse_power_on] reads MODE once and writes it back once with bits
    added: every bit read is written back and the strobe bit is set; the
    value [cvi_efuse_power_on(1)] writes has the power-down bit exactly as
    it was read, so it cannot clear it. *)
Theorem power_on_only_sets_bits (D : Device) (on : Z) (s : world D) :
  exists m s',
    cvi_efuse_power_on D on s = Some (tt, s') /\
    log s' = log s ++ [EvRead EFUSE_MODE m;
                       EvWrite EFUSE_MODE
                         (Z.lor m (if on =? 0 then 0x18 else 0x10))] /\
    (forall k, Z.testbit m k = true ->
               Z.testbit (Z.lor m (if on =? 0 then 0x18 else 0x10)) k = true) /\
    Z.testbit (Z.lor m (if on =? 0 then 0x18 else 0x10)) 4 = true /\
    Z.testbit (Z.lor m 0x10) 3 = Z.testbit m 3.
Proof.
  destruct (steps_read D EFUSE_MODE s) as (m & s1 & [R L] & _).
  exists m. unfold cvi_efuse_power_on, mmio_setbits_32, bind.
  destruct (on =? 0); rewrite R; (eexists; split; [reflexivity|]);
    cbn [log snd]; rewrite L, <- app_assoc;
    (split; [reflexivity|]);
    (split; [intros k Hk; rewrite Z.lor_spec, Hk; reflexivity|]);
    (split; [rewrite Z.lor_spec; simpl; apply orb_true_r|]);
    rewrite Z.lor_spec; simpl; apply orb_false_r.
Qed.

Section MorePasses.

Variable D : Device.
Variable fuel : nat.
Hypothesis ready : responsive D fuel.

Lemma wait_status (s : world D) :
  exists vs s',
    cvi_efuse_wait_for_ready D fuel s = Some (tt, s') /\
    log s' = log s ++ map (EvRead EFUSE_STATUS) vs.
Proof.
  destruct (cvi_efuse_wait_for_ready D fuel s) as [[[] s']|] eqn:E.
  - destruct (status_polls D fuel s s' E) as (vs & v & L & _).
    exists (vs ++ [v]), s'. auto.
  - exfalso. exact (ready s E).
Qed.

(** An unsupported read type is only noticed after the macro has been
    powered on, waited for and given the address: the call returns
    (uint32_t)-1 having written ADDR, and reads neither READ-DATA nor
    issues a read command. *)
Theorem read_from_phy_unsupported_type (a n : Z) (s : world D) :
  exists m vs s',
    cvi_efuse_read_from_phy D fuel a (EFUSE_UNSUPPORTED n) s
      = Some (0xFFFFFFFF, s') /\
    log s' = log s ++ [EvRead EFUSE_MODE m;
                       EvWrite EFUSE_MODE (Z.lor m EFUSE_BIT_CMD)]
                   ++ map (EvRead EFUSE_STATUS) vs
                   ++ [EvWrite EFUSE_ADR a].
Proof.
  destruct (steps_read D EFUSE_MODE s) as (m & s1 & R0 & _).
  pose proof (steps_write D EFUSE_MODE (Z.lor m EFUSE_BIT_CMD) s1) as W0.
  match type of W0 with steps _ _ _ _ ?x =>
    destruct (wait_status x) as (vs & s2 & P & L2) end.
  pose proof (steps_write D EFUSE_ADR a s2) as W1.
  exists m, vs,
    (iowrite32 D EFUSE_ADR a (dev s2), log s2 ++ [EvWrite EFUSE_ADR a]).
  assert (St : steps
    (bind (mmio_read_32 D EFUSE_MODE) (fun x =>
     bind (mmio_write_32 D EFUSE_MODE (Z.lor x EFUSE_BIT_CMD)) (fun _ =>
     bind (cvi_efuse_wait_for_ready D fuel) (fun _ =>
     bind (mmio_write_32 D EFUSE_ADR a) (fun _ => ret (u32 (-1)))))))
    s (u32 (-1))
    ([EvRead EFUSE_MODE m] ++ [EvWrite EFUSE_MODE (Z.lor m EFUSE_BIT_CMD)]
     ++ map (EvRead EFUSE_STATUS) vs ++ [EvWrite EFUSE_ADR a] ++ [])
    (iowrite32 D EFUSE_ADR a (dev s2), log s2 ++ [EvWrite EFUSE_ADR a])).
  { eapply steps_bind; [exact R0|].
    eapply steps_bind; [exact W0|].
    eapply steps_bind; [split; [exact P | exact L2]|].
    eapply steps_bind; [exact W1 | apply steps_ret]. }
  destruct St as [E L]. split.
  - change 0xFFFFFFFF with (u32 (-1)). rewrite <- E.
    unfold cvi_efuse_read_from_phy, cvi_efuse_power_on.
    simpl (1 =? 0). cbv iota. unfold mmio_setbits_32.
    rewrite bind_assoc. reflexivity.
  - rewrite L. rewrite app_nil_r. reflexivity.
Qed.

Lemma set_bits_zero : set_bits 0 = [].
Proof. reflexivity. Qed.

(** Writing the value 0 programs nothing and cannot fail: whatever the
    macro returns on its reads, the call returns 0 and writes to ADDR only
    the row address of each of its four reads. *)
Theorem write_word_zero_value (vir_word_addr : Z) (s : world D) :
  exists t s',
    cvi_efuse_write_word D fuel vir_word_addr 0 s = Some (0, s') /\
    log s' = log s ++ t /\
    adr_writes t = [phy_row vir_word_addr 0; phy_row vir_word_addr 0;
                    phy_row vir_word_addr 1; phy_row vir_word_addr 1] /\
    exists t', t = t' ++ [EvWrite EFUSE_MODE EFUSE_CMD_REFRESH].
Proof.
  destruct (write_word_pass_steps D fuel ready vir_word_addr 0 0 0 s)
    as (rv0 & ta & sa & tb & sb & nv0 & tc & s1 &
        _ & _ & _ & W0 & _ & [A1 _] & [A2 _] & [A3 _]).
  destruct (write_word_pass_steps D fuel ready vir_word_addr 0 1 0 s1)
    as (rv1 & td & sd & te & se & nv1 & tf & s2 &
        _ & _ & _ & W1 & _ & [A4 _] & [A5 _] & [A6 _]).
  assert (Hc : forall nv e, check_row 0 nv e = e) by reflexivity.
  rewrite Hc in W0, W1.
  assert (Hz : forall rv, zero_bits 0 rv = 0) by reflexivity.
  rewrite Hz, set_bits_zero in A2, A5. simpl map in A2, A5.
  eexists. eexists. split; [|split; [|split]].
  - unfold cvi_efuse_write_word, write_word_rows. cbn [for_loop].
    unfold bind at 1. unfold bind at 1.
    destruct W0 as [W0 _]. rewrite W0. change (0 + 1) with 1.
    unfold bind at 1. destruct W1 as [W1 _]. rewrite W1. reflexivity.
  - cbn [log snd]. destruct W0 as [_ L0]. destruct W1 as [_ L1].
    rewrite L1, L0, <- !app_assoc. reflexivity.
  - rewrite !adr_writes_app, A1, A2, A3, A4, A5, A6. reflexivity.
  - eexists. rewrite !app_assoc. reflexivity.
Qed.

End MorePasses.

(** ** The address arithmetic *)

Lemma prog_phy_addr_fields (w k j : Z) :
  0 <= w < 64 -> 0 <= k < 32 -> 0 <= j <= 1 ->
  prog_phy_addr w k j = k * 128 + w * 2 + j /\
  Z.shiftr (prog_phy_addr w k j) 7 = k /\
  Z.land (Z.shiftr (prog_phy_addr w k j) 1) 0x3F = w /\
  Z.land (prog_phy_addr w k j) 1 = j.
Proof.
  intros Hw Hk Hj. unfold prog_phy_addr.
  replace (Z.land k 0x1F) with k
    by (symmetry; transitivity (k mod 32);
        [apply (land_mask k 5); lia | apply Z.mod_small; lia]).
  replace (Z.land w 0x3F) with w
    by (symmetry; transitivity (w mod 64);
        [apply (land_mask w 6); lia | apply Z.mod_small; lia]).
  pose proof (packed_fields k w j Hk Hw Hj) as H.
  unfold packed_ok in H. cbv zeta in H.
  rewrite !andb_true_iff, !Z.eqb_eq in H. tauto.
Qed.

(** For valid word, bit and row-selector values the programming address
    fits in 12 bits and identifies the fuse bit: two different triples never
    share an address. *)
Theorem prog_phy_addr_injective (w k j w' k' j' : Z) :
  0 <= w < 64 -> 0 <= k < 32 -> 0 <= j <= 1 ->
  0 <= w' < 64 -> 0 <= k' < 32 -> 0 <= j' <= 1 ->
  0 <= prog_phy_addr w k j < 4096 /\
  (prog_phy_addr w k j = prog_phy_addr w' k' j' ->
   w = w' /\ k = k' /\ j = j').
Proof.
  intros Hw Hk Hj Hw' Hk' Hj'.
  destruct (prog_phy_addr_fields w k j Hw Hk Hj) as (E & _).
  destruct (prog_phy_addr_fields w' k' j' Hw' Hk' Hj') as (E' & _).
  split; [lia|]. intros H. rewrite E, E' in H. lia.
Qed.

Lemma lor_low_bit (x j : Z) : 0 <= j <= 1 -> Z.lor (2 * x) j = 2 * x + j.
Proof.
  intros Hj. assert (j = 0 \/ j = 1) as [->| ->] by lia.
  - now rewrite Z.lor_0_r, Z.add_0_r.
  - assert (H : Z.land (2 * x) 1 = 0).
    { change 1 with (Z.ones 1). rewrite Z.land_ones by lia.
      change (2 ^ 1) with 2. rewrite Z.mul_comm. apply Z.mod_mul. lia. }
    rewrite <- Z.lxor_lor by exact H. symmetry.
    apply Z.add_nocarry_lxor. exact H.
Qed.

Lemma phy_row_value (w j : Z) :
  0 <= w < 2 ^ 31 -> 0 <= j <= 1 -> phy_row w j = 2 * w + j.
Proof.
  intros Hw Hj. unfold phy_row, u32.
  rewrite Z.shiftl_mul_pow2 by lia. change (2 ^ 1) with 2.
  rewrite Z.mod_small by lia. rewrite (Z.mul_comm w 2).
  apply lor_low_bit. exact Hj.
Qed.

(** The programming address keeps only the low 6 bits of the word address,
    the read address of a pass keeps them all.  So for a word address from 64
    up a pass reads row 2 * word + j (128 or above) but aims its program
    pulses at the row of word mod 64. *)
Theorem high_word_address_aliases (w k j : Z) :
  64 <= w < 2 ^ 31 -> 0 <= k < 32 -> 0 <= j <= 1 ->
  prog_phy_addr w k j = prog_phy_addr (w mod 64) k j /\
  Z.land (prog_phy_addr w k j) 0x7F = 2 * (w mod 64) + j /\
  phy_row w j = 2 * w + j /\
  phy_row w j <> Z.land (prog_phy_addr w k j) 0x7F.
Proof.
  intros Hw Hk Hj.
  assert (Hm : 0 <= w mod 64 < 64) by (apply Z.mod_pos_bound; lia).
  assert (E : prog_phy_addr w k j = prog_phy_addr (w mod 64) k j).
  { unfold prog_phy_addr. do 3 f_equal.
    transitivity (w mod 64); [apply (land_mask w 6); lia|].
    transitivity ((w mod 64) mod 64); [now rewrite Z.mod_mod by lia|].
    symmetry. apply (land_mask (w mod 64) 6). lia. }
  destruct (decode_fields (w mod 64) k j Hm Hk Hj) as (Hrow & _).
  unfold row_of in Hrow.
  assert (Hp : phy_row w j = 2 * w + j) by (apply phy_row_value; lia).
  split; [exact E|]. rewrite E, Hrow, Hp.
  repeat split. lia.
Qed.

(** ** The read path *)

Lemma clk_depth_app (l1 l2 : list event) :
  clk_depth (l1 ++ l2) = clk_depth l1 + clk_depth l2.
Proof.
  induction l1 as [|e l1 IH]; simpl; [reflexivity|].
  destruct e; rewrite IH; lia.
Qed.

Lemma read_from_shadow_log (D : Device) (a : Z) (s : world D) :
  0 <= a ->
  exists r s' t,
    cvi_efuse_read_from_shadow D a s = Some (r, s') /\
    log s' = log s ++ t /\
    forallb shadow_access t = true /\ clk_depth t = 0.
Proof.
  intros Ha. unfold cvi_efuse_read_from_shadow.
  destruct (Z.geb_spec a EFUSE_SIZE) as [Hge|Hlt].
  { exists (- EFAULT), s, []. rewrite app_nil_r. auto. }
  destruct (Z.eqb_spec (a mod 4) 0) as [Hal|Hmis]; cbn [negb].
  2:{ exists (- EFAULT), s, []. rewrite app_nil_r. auto. }
  unfold bind, clk_enable.
  destruct (clk_prepare_enable D (dev s)) as [c h].
  destruct (Z.eqb_spec c 0) as [Hc|Hc]; cbn [negb].
  - subst c. unfold mmio_read_32. cbn [dev fst log snd].
    destruct (ioread32 D (EFUSE_SHADOW_REG + a) h) as [v h'].
    eexists. eexists.
    exists [EvClkEnable 0; EvRead (EFUSE_SHADOW_REG + a) (u32 v); EvClkDisable].
    split; [reflexivity|]. split.
    + cbn [log snd]. now rewrite <- !app_assoc.
    + split; [|reflexivity]. cbn [forallb shadow_access].
      unfold EFUSE_SHADOW_REG, EFUSE_SIZE in *.
      destruct (Z.leb_spec 256 (256 + a)); [|lia].
      destruct (Z.ltb_spec (256 + a) (256 + 256)); [|lia].
      rewrite Zplus_mod, Hal. reflexivity.
  - eexists. eexists. exists [EvClkEnable c].
    split; [reflexivity|]. split; [reflexivity|].
    split; [reflexivity|]. cbn [clk_depth].
    destruct (Z.eqb_spec c 0); [contradiction | reflexivity].
Qed.

Lemma read_buf_loop_log (D : Device) (addr size : Z) (n : nat) :
  forall (i : Z) (b : Mem) (s : world D),
  size <= i + 4 * Z.of_nat n ->
  exists r b' s' t,
    read_buf_loop D n addr b size i s = Some ((r, b'), s') /\
    log s' = log s ++ t /\
    forallb shadow_access t = true /\ clk_depth t = 0.
Proof.
  induction n as [|n IH]; intros i b s Hn; simpl;
    destruct (Z.ltb_spec i size) as [Hlt|Hge]; try lia;
    try (exists size, b, s, []; rewrite app_nil_r; auto; fail).
  destruct (read_from_shadow_log D (u32 (addr + i)) s)
    as (r & s1 & t1 & E & L1 & F1 & C1); [apply u32_range|].
  unfold bind. rewrite E.
  destruct (r <? 0).
  { exists r, b, s1, t1. auto. }
  destruct (IH (i + 4) (if r >? 0 then memcpy4 b i (u32 r) else b) s1)
    as (r' & b' & s' & t2 & E' & L2 & F2 & C2); [lia|].
  exists r', b', s', (t1 ++ t2). split; [exact E'|].
  split; [now rewrite L2, L1, app_assoc|].
  split; [now rewrite forallb_app, F1, F2|].
  rewrite clk_depth_app. lia.
Qed.

(** The buffer read always returns; it writes no register, reads only
    aligned words of the shadow window, and leaves the clock as it found
    it: every successful enable is matched by a disable, also when the
    loop stops on an error. *)
Theorem read_buf_is_read_only (D : Device) (addr : Z) (buf : option Mem)
    (size : Z) (s : world D) :
  exists r b' s' t,
    cvi_efuse_read_buf D addr buf size s = Some ((r, b'), s') /\
    log s' = log s ++ t /\
    forallb shadow_access t = true /\ clk_depth t = 0.
Proof.
  unfold cvi_efuse_read_buf. destruct buf as [b|].
  2:{ exists (- EFAULT), None, s, []. rewrite app_nil_r. auto. }
  destruct (read_buf_loop_log D addr
              (if size >? EFUSE_SIZE then EFUSE_SIZE else size) 64 0
              (memset b 0 (if size >? EFUSE_SIZE then EFUSE_SIZE else size)) s)
    as (r & b' & s' & t & E & L & F & C).
  { destruct (Z.gtb_spec size EFUSE_SIZE); unfold EFUSE_SIZE in *; lia. }
  exists r, (Some b'), s', t. unfold bind. rewrite E. auto.
Qed.

Lemma read_buf_loop_step (D : Device) (n : nat) (addr : Z) (b : Mem)
    (size i : Z) (s : world D) :
  read_buf_loop D (S n) addr b size i s
  = if i <? size then
      bind (cvi_efuse_read_from_shadow D (u32 (addr + i)))
        (fun r =>
           if r <? 0 then ret (r, b)
           else read_buf_loop D n addr
                  (if r >? 0 then memcpy4 b i (u32 r) else b) size (i + 4)) s
    else Some ((size, b), s).
Proof. simpl. destruct (i <? size); reflexivity. Qed.

(** A start address that is out of range or misaligned makes the first
    stride fail: the call returns -EFAULT without touching the clock or a
    register, but the caller's buffer has already been zeroed for the
    clamped size. *)
Theorem read_buf_bad_start (D : Device) (addr : Z) (b : Mem) (size : Z)
    (s : world D) :
  0 <= addr < 2 ^ 32 -> addr >= EFUSE_SIZE \/ addr mod 4 <> 0 -> 0 < size ->
  cvi_efuse_read_buf D addr (Some b) size s
  = Some ((- EFAULT, Some (memset b 0 (Z.min size EFUSE_SIZE))), s).
Proof.
  intros Ha Hbad Hs. unfold cvi_efuse_read_buf.
  assert (Hc : (if size >? EFUSE_SIZE then EFUSE_SIZE else size)
               = Z.min size EFUSE_SIZE).
  { destruct (Z.gtb_spec size EFUSE_SIZE); lia. }
  rewrite Hc. unfold bind at 1. rewrite read_buf_loop_step.
  destruct (Z.ltb_spec 0 (Z.min size EFUSE_SIZE)) as [_|H];
    [|unfold EFUSE_SIZE in H; lia].
  unfold bind. rewrite Z.add_0_r.
  replace (u32 addr) with addr by (unfold u32; rewrite Z.mod_small; lia).
  unfold cvi_efuse_read_from_shadow.
  destruct (Z.geb_spec addr EFUSE_SIZE) as [Hge|Hlt]; [reflexivity|].
  destruct (Z.eqb_spec (addr mod 4) 0) as [Hal|Hmis]; [|reflexivity].
  destruct Hbad; [lia | contradiction].
Qed.

Lemma byte_of_0 (j : Z) : byte_of 0 j = 0.
Proof. unfold byte_of. now rewrite Z.shiftr_0_l. Qed.

Lemma u32_idem (x : Z) : u32 (u32 x) = u32 x.
Proof. unfold u32. apply Z.mod_mod. lia. Qed.

Lemma sim_read_buf_loop (h : fuse_hw) (addr size : Z) (n : nat) :
  clk_ret h = 0 -> 0 <= addr -> addr mod 4 = 0 ->
  addr + 4 * ((size + 3) / 4) <= 256 ->
  forall (i : Z) (b : Mem) (l : list event),
  0 <= i -> i mod 4 = 0 -> size <= i + 4 * Z.of_nat n ->
  (forall k, i <= k < size -> b k = 0) ->
  exists b' l',
    read_buf_loop sim n addr b size i (h, l) = Some ((size, b'), (h, l')) /\
    forall k, i <= k < size ->
      b' k = byte_of (u32 (shadow h ((addr + k) / 4))) (k mod 4).
Proof.
  intros Hclk Ha Hal Hend.
  induction n as [|n IH]; intros i b l Hi Hi4 Hn Hz.
  - simpl. destruct (Z.ltb_spec i size); [lia|].
    exists b, l. split; [reflexivity|]. intros k Hk. lia.
  - rewrite read_buf_loop_step.
    destruct (Z.ltb_spec i size) as [Hlt|Hge].
    2:{ exists b, l. split; [reflexivity|]. intros k Hk. lia. }
    assert (Hin : 0 <= addr + i < 256).
    { split; [lia|]. clear IH Hz. Z.div_mod_to_equations. lia. }
    assert (Hali : (addr + i) mod 4 = 0).
    { rewrite Zplus_mod, Hal, Hi4. reflexivity. }
    unfold bind.
    replace (u32 (addr + i)) with (addr + i)
      by (unfold u32; rewrite Z.mod_small; lia).
    rewrite (sim_read_from_shadow (addr + i) h l Hin Hali Hclk).
    set (r := u32 (shadow h ((addr + i) / 4))).
    assert (Hr : 0 <= r < 2 ^ 32) by apply u32_range.
    destruct (Z.ltb_spec r 0) as [Hneg|_]; [lia|].
    set (b1 := if r >? 0 then memcpy4 b i (u32 r) else b).
    assert (Hi4' : (i + 4) mod 4 = 0).
    { rewrite Zplus_mod, Hi4. reflexivity. }
    match goal with |- context [read_buf_loop sim n addr b1 size (i + 4) (h, ?l1)] =>
      destruct (IH (i + 4) b1 l1) as (b' & l' & E & Hb); try lia; try assumption
    end.
    { intros k Hk. unfold b1. destruct (r >? 0); [|apply Hz; lia].
      unfold memcpy4.
      destruct (Z.leb_spec i k), (Z.ltb_spec k (i + 4)); simpl; try lia;
        apply Hz; lia. }
    exists b', l'. split; [exact E|].
    intros k Hk. destruct (Z.lt_ge_cases k (i + 4)) as [Hk4|Hk4];
      [|apply Hb; lia].
    rewrite (read_buf_loop_frame sim addr size n (i + 4) b1 _ _ _ _ Hi4' E k)
      by lia.
    assert (Hq : (addr + k) / 4 = (addr + i) / 4 /\ k mod 4 = k - i).
    { clear IH Hz Hb E. Z.div_mod_to_equations. lia. }
    destruct Hq as [Hq1 Hq2]. rewrite Hq1, Hq2. fold r.
    unfold b1. destruct (Z.gtb_spec r 0) as [Hpos|Hzero].
    + unfold memcpy4.
      destruct (Z.leb_spec i k), (Z.ltb_spec k (i + 4)); simpl; try lia.
      unfold r. now rewrite u32_idem.
    + assert (r = 0) by lia.
      replace r with 0 by lia. rewrite byte_of_0. apply Hz. lia.
Qed.

Lemma sim_read_buf (h : fuse_hw) (l : list event) (addr : Z) (b : Mem)
    (size : Z) :
  clk_ret h = 0 -> 0 <= addr -> addr mod 4 = 0 -> 0 <= size ->
  addr + 4 * ((Z.min size 256 + 3) / 4) <= 256 ->
  exists b' l',
    cvi_efuse_read_buf sim addr (Some b) size (h, l)
      = Some ((Z.min size 256, Some b'), (h, l')) /\
    forall k, 0 <= k < Z.min size 256 ->
      b' k = byte_of (u32 (shadow h ((addr + k) / 4))) (k mod 4).
Proof.
  intros Hclk Ha Hal Hs Hend. unfold cvi_efuse_read_buf.
  assert (Hc : (if size >? EFUSE_SIZE then EFUSE_SIZE else size)
               = Z.min size 256).
  { unfold EFUSE_SIZE. destruct (Z.gtb_spec size 256); lia. }
  rewrite Hc.
  destruct (sim_read_buf_loop h addr (Z.min size 256) 64 Hclk Ha Hal Hend 0
              (memset b 0 (Z.min size 256)) l)
    as (b' & l' & E & Hb); try lia; try reflexivity.
  { intros k Hk. unfold memset.
    destruct (Z.leb_spec 0 k), (Z.ltb_spec k (Z.min size 256)); simpl;
      try lia; reflexivity. }
  exists b', l'. unfold bind. rewrite E. split; [reflexivity | exact Hb].
Qed.

(** On the model of the macro, with a working clock: a buffer read from an
    aligned address that stays inside the array returns the clamped size and
    fills the buffer with the shadow words in little-endian byte order, byte
    k being byte k mod 4 of the word at address addr + k; the macro is left
    as it was. *)
Theorem read_buf_returns_shadow_bytes (h : fuse_hw) (l : list event)
    (addr : Z) (b : Mem) (size : Z) :
  clk_ret h = 0 -> 0 <= addr -> addr mod 4 = 0 -> 0 <= size ->
  addr + 4 * ((Z.min size 256 + 3) / 4) <= 256 ->
  exists b' l',
    cvi_efuse_read_buf sim addr (Some b) size (h, l)
      = Some ((Z.min size 256, Some b'), (h, l')) /\
    forall k, 0 <= k < Z.min size 256 ->
      b' k = byte_of (u32 (shadow h ((addr + k) / 4))) (k mod 4).
Proof. apply sim_read_buf. Qed.

(** ** The last word of a buffer read *)

(** The loop copies whole words: whatever the buffer held, every byte of a
    stride whose shadow word is not zero is written, up to the size rounded
    up to a multiple of 4. *)
Lemma sim_read_buf_loop_tail (h : fuse_hw) (addr size : Z) (n : nat) :
  clk_ret h = 0 -> 0 <= addr -> addr mod 4 = 0 ->
  addr + 4 * ((size + 3) / 4) <= 256 ->
  forall (i : Z) (b : Mem) (l : list event),
  0 <= i -> i mod 4 = 0 -> size <= i + 4 * Z.of_nat n ->
  exists b' l',
    read_buf_loop sim n addr b size i (h, l) = Some ((size, b'), (h, l')) /\
    forall k, i <= k < 4 * ((size + 3) / 4) ->
      u32 (shadow h ((addr + k) / 4)) <> 0 ->
      b' k = byte_of (u32 (shadow h ((addr + k) / 4))) (k mod 4).
Proof.
  intros Hclk Ha Hal Hend.
  induction n as [|n IH]; intros i b l Hi Hi4 Hn.
  - cbn [read_buf_loop]. destruct (Z.ltb_spec i size); [lia|].
    exists b, l. split; [reflexivity|]. intros k Hk.
    exfalso. Z.div_mod_to_equations. lia.
  - rewrite read_buf_loop_step.
    destruct (Z.ltb_spec i size) as [Hlt|Hge].
    2:{ exists b, l. split; [reflexivity|]. intros k Hk.
        exfalso. clear IH. Z.div_mod_to_equations. lia. }
    assert (Hin : 0 <= addr + i < 256).
    { split; [lia|]. clear IH. Z.div_mod_to_equations. lia. }
    assert (Hali : (addr + i) mod 4 = 0).
    { rewrite Zplus_mod, Hal, Hi4. reflexivity. }
    unfold bind.
    replace (u32 (addr + i)) with (addr + i)
      by (unfold u32; rewrite Z.mod_small; lia).
    rewrite (sim_read_from_shadow (addr + i) h l Hin Hali Hclk).
    set (r := u32 (shadow h ((addr + i) / 4))).
    assert (Hr : 0 <= r < 2 ^ 32) by apply u32_range.
    destruct (Z.ltb_spec r 0) as [Hneg|_]; [lia|].
    set (b1 := if r >? 0 then memcpy4 b i (u32 r) else b).
    assert (Hi4' : (i + 4) mod 4 = 0).
    { rewrite Zplus_mod, Hi4. reflexivity. }
    match goal with |- context [read_buf_loop sim n addr b1 size (i + 4) (h, ?l1)] =>
      destruct (IH (i + 4) b1 l1) as (b' & l' & E & Hb); try lia; try assumption
    end.
    exists b', l'. split; [exact E|].
    intros k Hk. destruct (Z.lt_ge_cases k (i + 4)) as [Hk4|Hk4];
      [|apply Hb; lia].
    rewrite (read_buf_loop_frame sim addr size n (i + 4) b1 _ _ _ _ Hi4' E k)
      by lia.
    assert (Hq : (addr + k) / 4 = (addr + i) / 4 /\ k mod 4 = k - i).
    { clear IH Hb E. Z.div_mod_to_equations. lia. }
    destruct Hq as [Hq1 Hq2]. rewrite Hq1, Hq2. fold r. intros Hnz.
    unfold b1. destruct (Z.gtb_spec r 0) as [Hpos|Hzero]; [|lia].
    unfold memcpy4.
    destruct (Z.leb_spec i k), (Z.ltb_spec k (i + 4)); simpl; try lia.
    unfold r. now rewrite u32_idem.
Qed.

(** C8 (where the code departs from it): the value returned on success is
    not the number of bytes the call fills.  On the model of the macro, with
    a working clock, for an aligned address and a size that is not a
    multiple of 4 and stays inside the array: [cvi_efuse_read_buf] returns
    the size, and when the last shadow word it reads is not zero the copy of
    that word also overwrites the bytes from the size up to the next multiple
    of 4, whatever the caller had there. *)
Theorem read_buf_writes_past_returned_size (h : fuse_hw) (l : list event)
    (addr : Z) (b : Mem) (size : Z) :
  clk_ret h = 0 -> 0 <= addr -> addr mod 4 = 0 ->
  0 < size -> size mod 4 <> 0 ->
  addr + 4 * ((size + 3) / 4) <= 256 ->
  u32 (shadow h ((addr + size) / 4)) <> 0 ->
  exists b' l',
    cvi_efuse_read_buf sim addr (Some b) size (h, l)
      = Some ((size, Some b'), (h, l')) /\
    forall k, size <= k < 4 * ((size + 3) / 4) ->
      b' k = byte_of (u32 (shadow h ((addr + size) / 4))) (k mod 4).
Proof.
  intros Hclk Ha Hal Hs Hodd Hend Hnz. unfold cvi_efuse_read_buf.
  assert (Hc : (if size >? EFUSE_SIZE then EFUSE_SIZE else size) = size).
  { unfold EFUSE_SIZE. destruct (Z.gtb_spec size 256); [|reflexivity].
    exfalso. Z.div_mod_to_equations. lia. }
  rewrite Hc.
  destruct (sim_read_buf_loop_tail h addr size 64 Hclk Ha Hal Hend 0
              (memset b 0 size) l)
    as (b' & l' & E & Hb); try lia; try reflexivity.
  { Z.div_mod_to_equations. lia. }
  exists b', l'. unfold bind. rewrite E. split; [reflexivity|].
  intros k Hk.
  assert (Hq : (addr + k) / 4 = (addr + size) / 4).
  { Z.div_mod_to_equations. lia. }
  rewrite <- Hq. apply Hb; [lia|]. now rewrite Hq.
Qed.

(** A request for 5 bytes from address 0 returns 5, and bytes 5, 6 and 7 of
    the caller's memory, which held 7, now hold the upper bytes 0x33, 0x22
    and 0x11 of the shadow word 0x11223345. *)
Lemma read_buf_writes_past_returned_size_witness :
  clk_ret (dev loaded) = 0 /\ 0 <= 0 /\ 0 mod 4 = 0 /\ 0 < 5 /\ 5 mod 4 <> 0 /\
  0 + 4 * ((5 + 3) / 4) <= 256 /\
  u32 (shadow (dev loaded) ((0 + 5) / 4)) <> 0 /\
  exists b' l',
    cvi_efuse_read_buf sim 0 (Some buf7) 5 loaded
      = Some ((5, Some b'), (dev loaded, l')) /\
    b' 5 = 0x33 /\ b' 6 = 0x22 /\ b' 7 = 0x11 /\
    buf7 5 = 7 /\ buf7 6 = 7 /\ buf7 7 = 7.
Proof.
  assert (H1 : clk_ret (dev loaded) = 0) by reflexivity.
  assert (H2 : 0 <= 0) by lia.
  assert (H3 : 0 mod 4 = 0) by reflexivity.
  assert (H4 : 0 < 5) by lia.
  assert (H5 : 5 mod 4 <> 0) by (vm_compute; discriminate).
  assert (H6 : 0 + 4 * ((5 + 3) / 4) <= 256) by (vm_compute; discriminate 1).
  assert (H7 : u32 (shadow (dev loaded) ((0 + 5) / 4)) <> 0)
    by (vm_compute; discriminate).
  repeat (split; [assumption|]).
  destruct (read_buf_writes_past_returned_size (dev loaded) [] 0 buf7 5
              H1 H2 H3 H4 H5 H6 H7) as (b' & l' & E & Hb).
  exists b', l'. split; [exact E|].
  rewrite (Hb 5), (Hb 6), (Hb 7)
    by (vm_compute; split; [discriminate 1 | reflexivity]).
  repeat split.
Defined.

(** ** The character device *)

Lemma read_buf_result (D : Device) (addr : Z) (b : Mem) (size : Z)
    (s : world D) :
  0 <= size ->
  exists r b' s',
    cvi_efuse_read_buf D addr (Some b) size s = Some ((r, Some b'), s') /\
    (r < 0 \/ r = Z.min size 256) /\
    forall k, k < 0 \/ 256 <= k -> b' k = b k.
Proof.
  intros Hs. unfold cvi_efuse_read_buf.
  assert (Hc : (if size >? EFUSE_SIZE then EFUSE_SIZE else size)
               = Z.min size 256).
  { unfold EFUSE_SIZE. destruct (Z.gtb_spec size 256); lia. }
  rewrite Hc.
  destruct (read_buf_loop_refines D addr (Z.min size 256) 64 0
              (memset b 0 (Z.min size 256)) (memset b 0 (Z.min size 256)) s)
    as (r & b1 & b2 & s' & E1 & _ & _ & Hr).
  - lia.
  - reflexivity.
  - intros k Hk. unfold memset.
    destruct (Z.leb_spec 0 k), (Z.ltb_spec k (Z.min size 256)); simpl;
      try lia; reflexivity.
  - exists r, b1, s'. unfold bind. rewrite E1.
    split; [reflexivity|]. split; [exact Hr|].
    intros k Hk.
    rewrite (read_buf_loop_frame D addr _ 64 0 _ _ _ _ _ eq_refl E1 k).
    + unfold memset.
      destruct (Z.leb_spec 0 k), (Z.ltb_spec k (Z.min size 256)); simpl;
        try reflexivity; lia.
    + destruct Hk; [left; lia | right].
      Z.div_mod_to_equations. lia.
Qed.

Lemma efuse_read_count (count offset : Z) :
  0 <= offset < 256 -> 0 <= count < 2 ^ 63 ->
  (if u64 (offset + count) >? EFUSE_SIZE
   then u64 (EFUSE_SIZE - offset) else count)
  = Z.min count (256 - offset).
Proof.
  intros Ho Hc. unfold u64, EFUSE_SIZE.
  rewrite !Z.mod_small by lia.
  destruct (Z.gtb_spec (offset + count) 256); lia.
Qed.

(** [efuse_read] never reads past the end of the array and never moves the
    file offset past 256: from an offset below 256 it either fails, leaving
    the offset where it was, or returns min(count, 256 - offset) and advances
    the offset by that; from 256 on it returns 0.  The 256-byte kernel
    buffer is never written outside its bounds. *)
Theorem efuse_read_stays_in_bounds (D : Device) (kernel_buf : Mem)
    (copied : bool) (count offset : Z) (s : world D) :
  0 <= offset -> 0 <= count < 2 ^ 63 ->
  exists r offset' kb s',
    efuse_read D kernel_buf copied count offset s
      = Some ((r, offset', kb), s') /\
    ((r < 0 /\ offset' = offset) \/
     (offset < 256 /\ r = Z.min count (256 - offset) /\
      offset' = offset + r /\ offset' <= 256) \/
     (256 <= offset /\ r = 0 /\ offset' = offset /\ s' = s)) /\
    (forall k, k < 0 \/ 256 <= k -> kb k = kernel_buf k).
Proof.
  intros Ho Hc. unfold efuse_read.
  destruct (Z.geb_spec offset EFUSE_SIZE) as [Hge|Hlt].
  { unfold EFUSE_SIZE in Hge.
    exists 0, offset, kernel_buf, s. split; [reflexivity|].
    split; [right; right; repeat split; lia | reflexivity]. }
  unfold EFUSE_SIZE in Hlt. rewrite efuse_read_count by lia.
  destruct (read_buf_result D (u32 offset) kernel_buf
              (Z.min count (256 - offset)) s)
    as (r & b' & s' & E & Hr & Hf); [lia|].
  unfold bind. rewrite E. cbn [fst snd].
  destruct (Z.ltb_spec r 0) as [Hneg|Hpos].
  { exists r, offset, b', s'. split; [reflexivity|]. split; auto. }
  destruct copied; cbn [negb].
  - exists r, (offset + r), b', s'. split; [reflexivity|]. split; [|exact Hf].
    right; left. lia.
  - exists (- EFAULT), offset, b', s'. split; [reflexivity|].
    split; [|exact Hf]. left. unfold EFAULT. lia.
Qed.

Lemma efuse_read_delivers_shadow_bytes_aux (h : fuse_hw) (l : list event)
    (kernel_buf : Mem) (count offset : Z) :
  clk_ret h = 0 -> 0 <= offset < 256 -> offset mod 4 = 0 ->
  0 <= count < 2 ^ 63 ->
  exists kb l',
    efuse_read sim kernel_buf true count offset (h, l)
      = Some ((Z.min count (256 - offset),
               offset + Z.min count (256 - offset), kb), (h, l')) /\
    forall k, 0 <= k < Z.min count (256 - offset) ->
      kb k = byte_of (u32 (shadow h ((offset + k) / 4))) (k mod 4).
Proof.
  intros Hclk Ho Hal Hc. unfold efuse_read.
  destruct (Z.geb_spec offset EFUSE_SIZE) as [Hge|_];
    [unfold EFUSE_SIZE in Hge; lia|].
  rewrite efuse_read_count by lia.
  replace (u32 offset) with offset by (unfold u32; rewrite Z.mod_small; lia).
  set (n := Z.min count (256 - offset)).
  assert (Hn : Z.min n 256 = n) by (unfold n; lia).
  destruct (sim_read_buf h l offset kernel_buf n Hclk) as (b' & l' & E & Hb);
    try lia.
  { rewrite Hn. unfold n. Z.div_mod_to_equations. lia. }
  rewrite Hn in E, Hb.
  unfold bind. rewrite E. cbn [fst snd negb].
  destruct (Z.ltb_spec n 0) as [Hneg|_]; [unfold n in Hneg; lia|].
  exists b', l'. split; [reflexivity | exact Hb].
Qed.

(** On the model of the macro, with a working clock and a writable user
    buffer: a read from an aligned offset below 256 returns
    min(count, 256 - offset), advances the offset by it and delivers the
    shadow bytes from that offset on, in little-endian order within each
    word. *)
Theorem efuse_read_delivers_shadow_bytes (h : fuse_hw) (l : list event)
    (kernel_buf : Mem) (count offset : Z) :
  clk_ret h = 0 -> 0 <= offset < 256 -> offset mod 4 = 0 ->
  0 <= count < 2 ^ 63 ->
  exists kb l',
    efuse_read sim kernel_buf true count offset (h, l)
      = Some ((Z.min count (256 - offset),
               offset + Z.min count (256 - offset), kb), (h, l')) /\
    forall k, 0 <= k < Z.min count (256 - offset) ->
      kb k = byte_of (u32 (shadow h ((offset + k) / 4))) (k mod 4).
Proof. apply efuse_read_delivers_shadow_bytes_aux. Qed.

Lemma efuse_read_misaligned (D : Device) (kernel_buf : Mem) (copied : bool)
    (count offset : Z) (s : world D) :
  0 <= offset < 256 -> offset mod 4 <> 0 -> 0 < count < 2 ^ 63 ->
  efuse_read D kernel_buf copied count offset s
  = Some ((- EFAULT, offset,
           memset kernel_buf 0 (Z.min (Z.min count (256 - offset)) 256)), s).
Proof.
  intros Ho Hmis Hc. unfold efuse_read.
  destruct (Z.geb_spec offset EFUSE_SIZE) as [Hge|_];
    [unfold EFUSE_SIZE in Hge; lia|].
  rewrite efuse_read_count by lia.
  replace (u32 offset) with offset by (unfold u32; rewrite Z.mod_small; lia).
  unfold bind.
  assert (Hbad : cvi_efuse_read_buf D offset (Some kernel_buf)
                   (Z.min count (256 - offset)) s
                 = Some ((- EFAULT,
                          Some (memset kernel_buf 0
                                  (Z.min (Z.min count (256 - offset)) 256))),
                         s)).
  { unfold cvi_efuse_read_buf.
    assert (Hcl : (if Z.min count (256 - offset) >? EFUSE_SIZE
                   then EFUSE_SIZE else Z.min count (256 - offset))
                  = Z.min (Z.min count (256 - offset)) 256).
    { unfold EFUSE_SIZE.
      destruct (Z.gtb_spec (Z.min count (256 - offset)) 256); lia. }
    rewrite Hcl. unfold bind. rewrite read_buf_loop_step.
    destruct (Z.ltb_spec 0 (Z.min (Z.min count (256 - offset)) 256));
      [|lia].
    unfold bind. rewrite Z.add_0_r.
    replace (u32 offset) with offset
      by (unfold u32; rewrite Z.mod_small; lia).
    unfold cvi_efuse_read_from_shadow.
    destruct (Z.geb_spec offset EFUSE_SIZE);
      [unfold EFUSE_SIZE in *; lia|].
    destruct (Z.eqb_spec (offset mod 4) 0); [contradiction | reflexivity]. }
  rewrite Hbad. reflexivity.
Qed.

(** The device can only be read in whole words: on the model, a successful
    read whose length is not a multiple of 4 leaves the file offset
    misaligned, and the next read from there fails with -EFAULT without
    moving the offset. *)
Theorem efuse_read_odd_length_breaks_next_read (h : fuse_hw)
    (l : list event) (kb1 kb2 : Mem) (copied : bool) (count count2 offset : Z) :
  clk_ret h = 0 -> 0 <= offset -> offset mod 4 = 0 ->
  0 < count -> count mod 4 <> 0 -> offset + count < 256 ->
  0 < count2 < 2 ^ 63 ->
  exists kb l' kb',
    efuse_read sim kb1 true count offset (h, l)
      = Some ((count, offset + count, kb), (h, l')) /\
    efuse_read sim kb2 copied count2 (offset + count) (h, l')
      = Some ((- EFAULT, offset + count, kb'), (h, l')).
Proof.
  intros Hclk Ho Hal Hc Hodd Hend Hc2.
  destruct (efuse_read_delivers_shadow_bytes_aux h l kb1 count offset)
    as (kb & l' & E & _); try lia; try assumption.
  replace (Z.min count (256 - offset)) with count in E by lia.
  exists kb, l'. eexists. split; [exact E|].
  apply efuse_read_misaligned; try lia.
  rewrite Zplus_mod, Hal. rewrite Z.add_0_l, Z.mod_mod by lia. exact Hodd.
Qed.

(** [efuse_write] never succeeds: for every length, every outcome of the
    two user copies and every address and value it returns a negative code,
    -EINVAL unless the length is 8, and leaves the file offset, the device
    and the log as they were. *)
Theorem efuse_write_never_succeeds (D : Device) (count : Z)
    (user_addr user_value : option Z) (offset : Z) (s : world D) :
  exists r,
    efuse_write D count user_addr user_value offset s = Some ((r, offset), s) /\
    r < 0 /\
    r = if count =? 8
        then match user_addr, user_value with
             | Some _, Some _ => -1
             | _, _ => - EFAULT
             end
        else - EINVAL.
Proof.
  unfold efuse_write. change (4 * 2) with 8.
  destruct (count =? 8); cbn [negb].
  - destruct user_addr as [a|], user_value as [v|];
      eexists; (split; [reflexivity|]); unfold EFAULT;
      split; try lia; reflexivity.
  - exists (- EINVAL). split; [reflexivity|]. unfold EINVAL.
    split; [lia | reflexivity].
Qed.

(** Every ioctl other than the read request fails and leaves the device
    alone.  The argument is copied in before the request code is looked at,
    so an unreadable argument gives -EFAULT even for an unknown request;
    otherwise the write request gives -1 and any other request -ENOTTY.
    Nothing is written back to the user. *)
Theorem efuse_ioctl_only_read_can_succeed (D : Device)
    (IOC_READ IOC_WRITE cmd : Z) (arg : option (Z * Z)) (copied : bool)
    (s : world D) :
  cmd <> IOC_READ ->
  exists r,
    efuse_ioctl D IOC_READ IOC_WRITE cmd arg copied s = Some ((r, None), s) /\
    r < 0 /\
    r = match arg with
        | None => - EFAULT
        | Some _ => if cmd =? IOC_WRITE then -1 else - ENOTTY
        end.
Proof.
  intros Hne. unfold efuse_ioctl. destruct arg as [[a v]|].
  - apply Z.eqb_neq in Hne. rewrite Hne.
    destruct (cmd =? IOC_WRITE); eexists; (split; [reflexivity|]);
      unfold ENOTTY; split; try lia; try reflexivity.
  - exists (- EFAULT). unfold EFAULT. repeat split; lia.
Qed.

(** The read request refuses an address at or beyond 256 or not a multiple
    of 4 with -EFAULT, before the clock or any register is touched and
    without writing anything back. *)
Theorem efuse_ioctl_read_bad_address (D : Device) (IOC_READ IOC_WRITE : Z)
    (addr value : Z) (copied : bool) (s : world D) :
  addr >= EFUSE_SIZE \/ addr mod 4 <> 0 ->
  efuse_ioctl D IOC_READ IOC_WRITE IOC_READ (Some (addr, value)) copied s
  = Some ((- EFAULT, None), s).
Proof.
  intros Hbad. unfold efuse_ioctl. rewrite Z.eqb_refl. unfold bind.
  destruct (read_from_shadow_cases D addr s) as (r & s' & E & Hcase).
  rewrite E.
  destruct Hcase as [(-> & -> & _)|(Hin & Hal & _)].
  - reflexivity.
  - destruct Hbad; [lia | contradiction].
Qed.

(** On the model of the macro, with a working clock: the read request for
    an aligned address below 256 returns 0 and hands back the address with
    the shadow word of that address, and a 4-byte [efuse_read] at the same
    offset delivers exactly the four bytes of that word, low byte first. *)
Theorem efuse_ioctl_read_agrees_with_read (h : fuse_hw) (l : list event)
    (IOC_READ IOC_WRITE addr value : Z) (kernel_buf : Mem) :
  clk_ret h = 0 -> 0 <= addr < 256 -> addr mod 4 = 0 ->
  exists v l1 kb l2,
    efuse_ioctl sim IOC_READ IOC_WRITE IOC_READ (Some (addr, value)) true (h, l)
      = Some ((0, Some (addr, v)), (h, l1)) /\
    v = u32 (shadow h (addr / 4)) /\
    efuse_read sim kernel_buf true 4 addr (h, l1)
      = Some ((4, addr + 4, kb), (h, l2)) /\
    forall k, 0 <= k < 4 -> kb k = byte_of v k.
Proof.
  intros Hclk Ha Hal.
  destruct (efuse_read_delivers_shadow_bytes_aux h
              (((l ++ [EvClkEnable 0])
                ++ [EvRead (EFUSE_SHADOW_REG + addr) (u32 (shadow h (addr / 4)))])
               ++ [EvClkDisable]) kernel_buf 4 addr Hclk Ha Hal)
    as (kb & l2 & E & Hb); [lia|].
  assert (Hmin : Z.min 4 (256 - addr) = 4).
  { clear E Hb. Z.div_mod_to_equations. lia. }
  rewrite Hmin in E, Hb.
  exists (u32 (shadow h (addr / 4))). eexists. exists kb, l2.
  split; [|split; [reflexivity|split; [exact E|]]].
  - unfold efuse_ioctl. rewrite Z.eqb_refl. unfold bind.
    rewrite (sim_read_from_shadow addr h l Ha Hal Hclk).
    pose proof (u32_range (shadow h (addr / 4))) as Hr.
    destruct (Z.ltb_spec (u32 (shadow h (addr / 4))) 0); [lia|].
    cbn [negb]. now rewrite u32_idem.
  - intros k Hk. rewrite (Hb k Hk).
    assert (Hq : (addr + k) / 4 = addr / 4 /\ k mod 4 = k).
    { clear E Hb. Z.div_mod_to_equations. lia. }
    destruct Hq as [-> ->]. reflexivity.
Qed.

(** ** The write path on the model of the macro *)

Lemma blow_or (d : Z -> Z) (v r x : Z) :
  (forall k, 32 <= k -> Z.testbit v k = false) ->
  blow d v r x = Z.lor x (Z.land v (Z.lnot (d r))).
Proof.
  intros Hv. apply Z.bits_inj'. intros k Hk.
  rewrite testbit_blow, Z.lor_spec, Z.land_spec, Z.lnot_spec by exact Hk.
  destruct (Z.ltb_spec k 32) as [Hlt|Hge].
  - destruct (Z.testbit x k), (Z.testbit v k), (Z.testbit (d r) k);
      reflexivity.
  - rewrite (Hv k Hge). destruct (Z.testbit x k); reflexivity.
Qed.

Lemma u32_high_bits (v : Z) :
  0 <= v < 2 ^ 32 -> forall k, 32 <= k -> Z.testbit v k = false.
Proof.
  intros Hv k Hk. rewrite <- (Z.mod_small v (2 ^ 32)) by exact Hv.
  apply (testbit_u32_high v k Hk).
Qed.

Lemma sim_write_word_array (h : fuse_hw) (l : list event) (w v : Z) :
  0 <= w < 64 -> (forall k, 32 <= k -> Z.testbit v k = false) ->
  exists r h' l',
    cvi_efuse_write_word sim 2 w v (h, l) = Some (r, (h', l')) /\
    same_faults h h' /\
    (forall k, shadow h' k = mirror (compose h) (fuse h') k) /\
    forall row,
      fuse h' row
      = if (row =? 2 * w) || (row =? 2 * w + 1)
        then Z.lor (fuse h row) (Z.land v (Z.lnot (dud h row)))
        else fuse h row.
Proof.
  intros Hw Hv.
  destruct (sim_write_word w v h l Hw)
    as (h' & t & [E _] & F & SF & SH & _).
  eexists. exists h', (l ++ t). split; [exact E|].
  split; [exact SF|]. split; [exact SH|].
  intros row. rewrite F, burn_word_rows by exact Hw.
  rewrite Z.add_0_r.
  destruct ((row =? 2 * w) || (row =? 2 * w + 1)); [|reflexivity].
  apply blow_or. exact Hv.
Qed.

(** On the model: a word write changes only the two rows of its word; in
    those it never clears a bit and only adds bits of the value written,
    namely those that are not dud. *)
Theorem write_word_touches_only_its_rows (h : fuse_hw) (l : list event)
    (w v : Z) :
  0 <= w < 64 -> 0 <= v < 2 ^ 32 ->
  exists r h' l',
    cvi_efuse_write_word sim 2 w v (h, l) = Some (r, (h', l')) /\
    (forall row, row <> 2 * w -> row <> 2 * w + 1 ->
                 fuse h' row = fuse h row) /\
    (forall row k, 0 <= k -> Z.testbit (fuse h row) k = true ->
                   Z.testbit (fuse h' row) k = true) /\
    (forall row k, 0 <= k -> Z.testbit (fuse h' row) k = true ->
                   Z.testbit (fuse h row) k = true \/
                   ((row = 2 * w \/ row = 2 * w + 1) /\
                    Z.testbit v k = true /\
                    Z.testbit (dud h row) k = false)).
Proof.
  intros Hw Hv.
  destruct (sim_write_word_array h l w v Hw (u32_high_bits v Hv))
    as (r & h' & l' & E & _ & _ & F).
  exists r, h', l'. split; [exact E|]. split; [|split].
  - intros row H0 H1. rewrite F.
    apply Z.eqb_neq in H0, H1. now rewrite H0, H1.
  - intros row k Hk Hb. rewrite F.
    destruct ((row =? 2 * w) || (row =? 2 * w + 1)); [|exact Hb].
    rewrite Z.lor_spec, Hb. reflexivity.
  - intros row k Hk. rewrite F.
    destruct ((row =? 2 * w) || (row =? 2 * w + 1)) eqn:Er; [|now left].
    rewrite Z.lor_spec, Z.land_spec, Z.lnot_spec by exact Hk.
    intros Hb. apply orb_true_iff in Hb. destruct Hb as [Hb|Hb]; [now left|].
    right. apply andb_true_iff in Hb. destruct Hb as [Hvk Hd].
    apply negb_true_iff in Hd. apply orb_true_iff in Er.
    rewrite !Z.eqb_eq in Er. auto.
Qed.

(** On the model: writes to one word accumulate.  Writing v1 and then v2
    leaves the same array and the same shadow window as writing v2 and then
    v1, and as one write of v1 | v2. *)
Theorem write_word_accumulates (h : fuse_hw) (l : list event) (w v1 v2 : Z) :
  0 <= w < 64 -> 0 <= v1 < 2 ^ 32 -> 0 <= v2 < 2 ^ 32 ->
  exists ra ha la rb hb lb rc hc lc rd hd ld re he le,
    cvi_efuse_write_word sim 2 w v1 (h, l) = Some (ra, (ha, la)) /\
    cvi_efuse_write_word sim 2 w v2 (ha, la) = Some (rb, (hb, lb)) /\
    cvi_efuse_write_word sim 2 w v2 (h, l) = Some (rc, (hc, lc)) /\
    cvi_efuse_write_word sim 2 w v1 (hc, lc) = Some (rd, (hd, ld)) /\
    cvi_efuse_write_word sim 2 w (Z.lor v1 v2) (h, l) = Some (re, (he, le)) /\
    (forall row, fuse hb row = fuse hd row /\ fuse hb row = fuse he row) /\
    (forall k, shadow hb k = shadow hd k /\ shadow hb k = shadow he k).
Proof.
  intros Hw H1 H2.
  pose proof (u32_high_bits v1 H1) as B1.
  pose proof (u32_high_bits v2 H2) as B2.
  assert (B12 : forall k, 32 <= k -> Z.testbit (Z.lor v1 v2) k = false).
  { intros k Hk. now rewrite Z.lor_spec, B1, B2. }
  destruct (sim_write_word_array h l w v1 Hw B1)
    as (ra & ha & la & Ea & (Da & _ & _ & Ka) & _ & Fa).
  destruct (sim_write_word_array ha la w v2 Hw B2)
    as (rb & hb & lb & Eb & _ & Sb & Fb).
  destruct (sim_write_word_array h l w v2 Hw B2)
    as (rc & hc & lc & Ec & (Dc & _ & _ & Kc) & _ & Fc).
  destruct (sim_write_word_array hc lc w v1 Hw B1)
    as (rd & hd & ld & Ed & _ & Sd & Fd).
  destruct (sim_write_word_array h l w (Z.lor v1 v2) Hw B12)
    as (re & he & le & Ee & _ & Se & Fe).
  exists ra, ha, la, rb, hb, lb, rc, hc, lc, rd, hd, ld, re, he, le.
  repeat (split; [assumption|]).
  assert (F : forall row, fuse hb row = fuse hd row /\ fuse hb row = fuse he row).
  { intros row. rewrite Fb, Fd, Fe, Fa, Fc, Da, Dc.
    destruct ((row =? 2 * w) || (row =? 2 * w + 1)); [|auto].
    split; apply Z.bits_inj'; intros k Hk;
      rewrite !Z.lor_spec, !Z.land_spec, ?Z.lor_spec, !Z.lnot_spec by exact Hk;
      destruct (Z.testbit (fuse h row) k), (Z.testbit v1 k),
               (Z.testbit v2 k), (Z.testbit (dud h row) k); reflexivity. }
  split; [exact F|].
  intros k. rewrite Sb, Sd, Se, Ka, Kc. unfold mirror.
  destruct (F (2 * k)) as [A1 A2]. destruct (F (2 * k + 1)) as [A3 A4].
  split; congruence.
Qed.

(** ** Instances of the further properties *)

Lemma busy_wait_never_times_out_witness :
  (forall h, Z.land (u32 (fst (ioread32 stuck EFUSE_STATUS h))) EFUSE_BIT_BUSY
             <> 0) /\
  cvi_efuse_write_word stuck 1000 1 0xF (tt, []) = None.
Proof.
  assert (H : forall h, Z.land (u32 (fst (ioread32 stuck EFUSE_STATUS h)))
                               EFUSE_BIT_BUSY <> 0)
    by (intros h; vm_compute; discriminate).
  split; [exact H|].
  exact (proj2 (proj2 (proj2
    (busy_wait_never_times_out stuck 1000 (tt, []) 1 0 0 0 0xF EFUSE_AREAD H)))).
Defined.

Lemma busy_wait_only_polls_status_witness :
  cvi_efuse_wait_for_ready sim 2 (with_busy true (blank no_fault no_fault), [])
  = Some (tt, (with_busy false (blank no_fault no_fault),
               [EvRead EFUSE_STATUS 1; EvRead EFUSE_STATUS 0])) /\
  exists vs v,
    [EvRead EFUSE_STATUS 1; EvRead EFUSE_STATUS 0]
    = [] ++ map (EvRead EFUSE_STATUS) (vs ++ [v]) /\
    (length vs < 2)%nat.
Proof.
  assert (H : cvi_efuse_wait_for_ready sim 2
                (with_busy true (blank no_fault no_fault), [])
              = Some (tt, (with_busy false (blank no_fault no_fault),
                           [EvRead EFUSE_STATUS 1; EvRead EFUSE_STATUS 0])))
    by reflexivity.
  split; [exact H|].
  destruct (busy_wait_only_polls_status sim 2 _ _ H) as (vs & v & L & _ & _ & N).
  exists vs, v. split; [exact L | exact N].
Defined.

Lemma read_from_phy_unsupported_type_witness :
  responsive sim 2 /\
  exists s', cvi_efuse_read_from_phy sim 2 5 (EFUSE_UNSUPPORTED 7) sim0
             = Some (0xFFFFFFFF, s').
Proof.
  split; [exact sim_responsive|].
  destruct (read_from_phy_unsupported_type sim 2 sim_responsive 5 7 sim0)
    as (m & vs & s' & E & _).
  exists s'. exact E.
Defined.

Lemma write_word_zero_value_witness :
  responsive sim 2 /\
  exists s', cvi_efuse_write_word sim 2 3 0 both_rows_dud = Some (0, s').
Proof.
  split; [exact sim_responsive|].
  destruct (write_word_zero_value sim 2 sim_responsive 3 both_rows_dud)
    as (t & s' & E & _).
  exists s'. exact E.
Defined.

Lemma prog_phy_addr_injective_witness :
  (0 <= 5 < 64) /\ (0 <= 3 < 32) /\ (0 <= 1 <= 1) /\
  (0 <= 6 < 64) /\ (0 <= 3 < 32) /\ (0 <= 0 <= 1) /\
  0 <= prog_phy_addr 5 3 1 < 4096.
Proof.
  assert (H1 : 0 <= 5 < 64) by lia. assert (H2 : 0 <= 3 < 32) by lia.
  assert (H3 : 0 <= 1 <= 1) by lia. assert (H4 : 0 <= 6 < 64) by lia.
  assert (H5 : 0 <= 0 <= 1) by lia.
  repeat (split; [assumption|]).
  exact (proj1 (prog_phy_addr_injective 5 3 1 6 3 0 H1 H2 H3 H4 H2 H5)).
Defined.

Lemma high_word_address_aliases_witness :
  (64 <= 64 < 2 ^ 31) /\ (0 <= 0 < 32) /\ (0 <= 0 <= 1) /\
  phy_row 64 0 = 2 * 64 + 0 /\
  Z.land (prog_phy_addr 64 0 0) 0x7F = 2 * (64 mod 64) + 0.
Proof.
  assert (H1 : 64 <= 64 < 2 ^ 31) by lia.
  assert (H2 : 0 <= 0 < 32) by lia. assert (H3 : 0 <= 0 <= 1) by lia.
  repeat (split; [assumption|]).
  destruct (high_word_address_aliases 64 0 0 H1 H2 H3) as (_ & A & B & _).
  split; [exact B | exact A].
Defined.

Lemma read_buf_bad_start_witness :
  (0 <= 6 < 2 ^ 32) /\ (6 >= EFUSE_SIZE \/ 6 mod 4 <> 0) /\ 0 < 8 /\
  cvi_efuse_read_buf sim 6 (Some buf7) 8 loaded
  = Some ((- EFAULT, Some (memset buf7 0 (Z.min 8 EFUSE_SIZE))), loaded).
Proof.
  assert (H1 : 0 <= 6 < 2 ^ 32) by lia.
  assert (H2 : 6 >= EFUSE_SIZE \/ 6 mod 4 <> 0)
    by (right; vm_compute; discriminate).
  assert (H3 : 0 < 8) by lia.
  repeat (split; [assumption|]).
  exact (read_buf_bad_start sim 6 buf7 8 loaded H1 H2 H3).
Defined.

Lemma read_buf_returns_shadow_bytes_witness :
  clk_ret (dev loaded) = 0 /\ 0 <= 8 /\ 8 mod 4 = 0 /\ 0 <= 6 /\
  8 + 4 * ((Z.min 6 256 + 3) / 4) <= 256 /\
  exists b' l',
    cvi_efuse_read_buf sim 8 (Some buf7) 6 loaded
      = Some ((Z.min 6 256, Some b'), (dev loaded, l')) /\
    b' 5 = byte_of (u32 (shadow (dev loaded) ((8 + 5) / 4))) (5 mod 4).
Proof.
  assert (H1 : clk_ret (dev loaded) = 0) by reflexivity.
  assert (H2 : 0 <= 8) by lia. assert (H3 : 8 mod 4 = 0) by reflexivity.
  assert (H4 : 0 <= 6) by lia.
  assert (H5 : 8 + 4 * ((Z.min 6 256 + 3) / 4) <= 256)
    by (vm_compute; discriminate).
  repeat (split; [assumption|]).
  destruct (read_buf_returns_shadow_bytes (dev loaded) [] 8 buf7 6
              H1 H2 H3 H4 H5) as (b' & l' & E & Hb).
  exists b', l'. split; [exact E|]. apply Hb. lia.
Defined.

Lemma efuse_read_stays_in_bounds_witness :
  0 <= 200 /\ (0 <= 1000 < 2 ^ 63) /\
  exists r offset' kb s',
    efuse_read sim buf7 true 1000 200 loaded = Some ((r, offset', kb), s') /\
    (forall k, k < 0 \/ 256 <= k -> kb k = buf7 k).
Proof.
  assert (H1 : 0 <= 200) by lia. assert (H2 : 0 <= 1000 < 2 ^ 63) by lia.
  repeat (split; [assumption|]).
  destruct (efuse_read_stays_in_bounds sim buf7 true 1000 200 loaded H1 H2)
    as (r & o & kb & s' & E & _ & F).
  exists r, o, kb, s'. split; [exact E | exact F].
Defined.

Lemma efuse_read_delivers_shadow_bytes_witness :
  clk_ret (dev loaded) = 0 /\ (0 <= 200 < 256) /\ 200 mod 4 = 0 /\
  (0 <= 1000 < 2 ^ 63) /\
  exists kb l',
    efuse_read sim buf7 true 1000 200 loaded
    = Some ((Z.min 1000 (256 - 200), 200 + Z.min 1000 (256 - 200), kb),
            (dev loaded, l')).
Proof.
  assert (H1 : clk_ret (dev loaded) = 0) by reflexivity.
  assert (H2 : 0 <= 200 < 256) by lia.
  assert (H3 : 200 mod 4 = 0) by reflexivity.
  assert (H4 : 0 <= 1000 < 2 ^ 63) by lia.
  repeat (split; [assumption|]).
  destruct (efuse_read_delivers_shadow_bytes (dev loaded) [] buf7 1000 200
              H1 H2 H3 H4) as (kb & l' & E & _).
  exists kb, l'. exact E.
Defined.

Lemma efuse_read_odd_length_breaks_next_read_witness :
  clk_ret (dev loaded) = 0 /\ 0 <= 0 /\ 0 mod 4 = 0 /\ 0 < 5 /\
  5 mod 4 <> 0 /\ 0 + 5 < 256 /\ (0 < 5 < 2 ^ 63) /\
  exists kb l' kb',
    efuse_read sim buf7 true 5 0 loaded
      = Some ((5, 0 + 5, kb), (dev loaded, l')) /\
    efuse_read sim buf7 true 5 (0 + 5) (dev loaded, l')
      = Some ((- EFAULT, 0 + 5, kb'), (dev loaded, l')).
Proof.
  assert (H1 : clk_ret (dev loaded) = 0) by reflexivity.
  assert (H2 : 0 <= 0) by lia. assert (H3 : 0 mod 4 = 0) by reflexivity.
  assert (H4 : 0 < 5) by lia.
  assert (H5 : 5 mod 4 <> 0) by (vm_compute; discriminate).
  assert (H6 : 0 + 5 < 256) by lia. assert (H7 : 0 < 5 < 2 ^ 63) by lia.
  repeat (split; [assumption|]).
  exact (efuse_read_odd_length_breaks_next_read (dev loaded) [] buf7 buf7 true
           5 5 0 H1 H2 H3 H4 H5 H6 H7).
Defined.

Lemma efuse_ioctl_only_read_can_succeed_witness :
  IOC_WRITE_GENERIC <> IOC_READ_GENERIC /\
  efuse_ioctl sim IOC_READ_GENERIC IOC_WRITE_GENERIC IOC_WRITE_GENERIC
    (Some (4, 0xF)) true sim0
  = Some ((-1, None), sim0).
Proof.
  assert (H : IOC_WRITE_GENERIC <> IOC_READ_GENERIC)
    by (vm_compute; discriminate).
  split; [exact H|].
  destruct (efuse_ioctl_only_read_can_succeed sim IOC_READ_GENERIC
              IOC_WRITE_GENERIC IOC_WRITE_GENERIC (Some (4, 0xF)) true sim0 H)
    as (r & E & _ & Hr).
  rewrite E. rewrite Hr. reflexivity.
Defined.

Lemma efuse_ioctl_read_bad_address_witness :
  (0x101 >= EFUSE_SIZE \/ 0x101 mod 4 <> 0) /\
  efuse_ioctl sim IOC_READ_GENERIC IOC_WRITE_GENERIC IOC_READ_GENERIC
    (Some (0x101, 0)) true sim0
  = Some ((- EFAULT, None), sim0).
Proof.
  assert (H : 0x101 >= EFUSE_SIZE \/ 0x101 mod 4 <> 0)
    by (right; vm_compute; discriminate).
  split; [exact H|].
  exact (efuse_ioctl_read_bad_address sim IOC_READ_GENERIC IOC_WRITE_GENERIC
           0x101 0 true sim0 H).
Defined.

Lemma efuse_ioctl_read_agrees_with_read_witness :
  clk_ret (dev loaded) = 0 /\ (0 <= 8 < 256) /\ 8 mod 4 = 0 /\
  exists v l1 kb l2,
    efuse_ioctl sim IOC_READ_GENERIC IOC_WRITE_GENERIC IOC_READ_GENERIC
      (Some (8, 0)) true loaded
      = Some ((0, Some (8, v)), (dev loaded, l1)) /\
    efuse_read sim buf7 true 4 8 (dev loaded, l1)
      = Some ((4, 8 + 4, kb), (dev loaded, l2)) /\
    forall k, 0 <= k < 4 -> kb k = byte_of v k.
Proof.
  assert (H1 : clk_ret (dev loaded) = 0) by reflexivity.
  assert (H2 : 0 <= 8 < 256) by lia.
  assert (H3 : 8 mod 4 = 0) by reflexivity.
  repeat (split; [assumption|]).
  destruct (efuse_ioctl_read_agrees_with_read (dev loaded) []
              IOC_READ_GENERIC IOC_WRITE_GENERIC 8 0 buf7 H1 H2 H3)
    as (v & l1 & kb & l2 & E1 & _ & E2 & Hb).
  exists v, l1, kb, l2. auto.
Defined.

Lemma write_word_touches_only_its_rows_witness :
  (0 <= 1 < 64) /\ (0 <= 0xF < 2 ^ 32) /\
  exists r h' l',
    cvi_efuse_write_word sim 2 1 0xF one_row_dud = Some (r, (h', l')) /\
    (forall row, row <> 2 * 1 -> row <> 2 * 1 + 1 ->
                 fuse h' row = fuse (dev one_row_dud) row).
Proof.
  assert (H1 : 0 <= 1 < 64) by lia. assert (H2 : 0 <= 0xF < 2 ^ 32) by lia.
  repeat (split; [assumption|]).
  destruct (write_word_touches_only_its_rows (dev one_row_dud) [] 1 0xF H1 H2)
    as (r & h' & l' & E & F & _).
  exists r, h', l'. split; [exact E | exact F].
Defined.

Lemma write_word_accumulates_witness :
  (0 <= 1 < 64) /\ (0 <= 0x3 < 2 ^ 32) /\ (0 <= 0xC < 2 ^ 32) /\
  exists ra ha la rb hb lb re he le,
    cvi_efuse_write_word sim 2 1 0x3 sim0 = Some (ra, (ha, la)) /\
    cvi_efuse_write_word sim 2 1 0xC (ha, la) = Some (rb, (hb, lb)) /\
    cvi_efuse_write_word sim 2 1 (Z.lor 0x3 0xC) sim0 = Some (re, (he, le)) /\
    (forall row, fuse hb row = fuse he row).
Proof.
  assert (H1 : 0 <= 1 < 64) by lia. assert (H2 : 0 <= 0x3 < 2 ^ 32) by lia.
  assert (H3 : 0 <= 0xC < 2 ^ 32) by lia.
  repeat (split; [assumption|]).
  destruct (write_word_accumulates (blank no_fault no_fault) [] 1 0x3 0xC
              H1 H2 H3)
    as (ra & ha & la & rb & hb & lb & rc & hc & lc & rd & hd & ld &
        re & he & le & Ea & Eb & _ & _ & Ee & F & _).
  exists ra, ha, la, rb, hb, lb, re, he, le.
  repeat (split; [assumption|]). intros row. apply F.
Defined.
